(** * Solar-system background: collision resolver, gravity hook, spawn
      generator and trail store

    A shallow embedding of [SolarSystemCore] (the consolidated component)
    and of the stand-alone [components/Planets.jsx].  JavaScript numbers are
    idealised as real numbers; [Math.random] is an explicit stream of draws
    threaded through the code; the physics engine's rigid bodies live in a
    store (a list indexed by handle) that the callbacks mutate in place. *)

From Stdlib Require Import Reals Lra Lia String.
From stdpp Require Import gmap strings list.

Local Open Scope R_scope.

(** ** JavaScript values *)

(** Decidable comparisons of numbers, used by [bool_decide]. *)
#[global] Instance Rgt_decision (a b : R) : Decision (a > b) := Rgt_dec a b.
#[global] Instance Req_decision : EqDecision R := Req_dec_T.

(** The few shapes of value whose truthiness the code tests. *)
Inductive JsValue : Type :=
  | JsUndefined
  | JsBoolean (b : bool)
  | JsFunction.

(** [ToBoolean]: [undefined] is falsy, a function object is truthy. *)
Definition truthy (v : JsValue) : bool :=
  match v with
  | JsUndefined => false
  | JsBoolean b => b
  | JsFunction => true
  end.

(** [a || b] on numbers: [a] unless it is [0]. *)
Definition num_or (a b : R) : R := if bool_decide (a = 0) then b else a.

(** [Math.round]: nearest integer, halves upwards. *)
Definition Math_round (v : R) : R := IZR (Int_part (v + 0.5)).

(** [Math.pow] with a literal natural exponent. *)
Definition Math_pow (v : R) (n : nat) : R := v ^ n.

(** A computation that records a division by zero (the only way the
    arithmetic of this program can leave the finite numbers). *)
Inductive Checked (A : Type) : Type :=
  | Ok (a : A)
  | DivisionByZero.
Arguments Ok {A} a.
Arguments DivisionByZero {A}.

#[global] Instance Checked_ret : MRet Checked := fun A a => Ok a.
#[global] Instance Checked_bind : MBind Checked := fun A B k m =>
  match m with
  | Ok a => k a
  | DivisionByZero => DivisionByZero
  end.

Definition chk_div (a b : R) : Checked R :=
  if bool_decide (b = 0) then DivisionByZero else Ok (a / b).

(** ** three.js [Vector3] *)
Module Vector3.

Record t : Type := new { x : R; y : R; z : R }.

Definition zero : t := new 0 0 0.

Definition copy (v : t) : t := new (x v) (y v) (z v).
Definition clone (v : t) : t := new (x v) (y v) (z v).

Definition length (v : t) : R :=
  sqrt (x v * x v + y v * y v + z v * z v).

Definition dot (a b : t) : R := x a * x b + y a * y b + z a * z b.

Definition multiplyScalar (v : t) (s : R) : t :=
  new (x v * s) (y v * s) (z v * s).

Definition divideScalar (v : t) (s : R) : t := multiplyScalar v (1 / s).

Definition normalize (v : t) : t := divideScalar v (num_or (length v) 1).

Definition addScaledVector (this v : t) (s : R) : t :=
  new (x this + x v * s) (y this + y v * s) (z this + z v * s).

Definition subVectors (a b : t) : t :=
  new (x a - x b) (y a - y b) (z a - z b).

Definition crossVectors (a b : t) : t :=
  new (y a * z b - z a * y b)
      (z a * x b - x a * z b)
      (x a * y b - y a * x b).

Definition distanceToSquared (this v : t) : R :=
  let dx := x this - x v in
  let dy := y this - y v in
  let dz := z this - z v in
  dx * dx + dy * dy + dz * dz.

Definition distanceTo (this v : t) : R := sqrt (distanceToSquared this v).

(** The same two operations with their division checked. *)
Definition divideScalar_chk (v : t) (s : R) : Checked t :=
  inv ← chk_div 1 s; mret (multiplyScalar v inv).

Definition normalize_chk (v : t) : Checked t :=
  divideScalar_chk v (num_or (length v) 1).

(** Distance from the vertical axis. *)
Definition horizontalRadius (v : t) : R := sqrt (x v * x v + z v * z v).

End Vector3.

(** ** Constants *)
Definition GRAVITATIONAL_CONSTANT : R := 6.6743e-11.
Definition SCALE_FACTOR : R := 0.0001.
Definition SPAWN_RADIUS : R := 250.
Definition SUN_RADIUS : R := 15.
Definition SUN_MASS : R :=
  Math_round ((4 / 3) * PI * Math_pow SUN_RADIUS 3 * 1410) / 100.

(** ** [Math.random] as a stream of draws *)
Record Random : Type := mkRandom { draws : nat -> R; cursor : nat }.

Definition Rand (A : Type) : Type := Random -> A * Random.

#[global] Instance Rand_ret : MRet Rand := fun A a g => (a, g).
#[global] Instance Rand_bind : MBind Rand := fun A B k m g =>
  let '(a, g') := m g in k a g'.

Definition Math_random : Rand R :=
  fun g => (draws g (cursor g), mkRandom (draws g) (S (cursor g))).

(** ** Spawn position and velocity *)
Definition calculateInitialPosition (isEntry : bool) : Rand Vector3.t :=
  r0 ← Math_random;
  let theta := r0 * PI * 2 in
  radius ← (if isEntry then mret (SPAWN_RADIUS * 1.5)
            else r1 ← Math_random; mret (r1 * SPAWN_RADIUS + SUN_RADIUS * 3));
  let x := cos theta * radius in
  r2 ← Math_random;
  let y := r2 * 10 in
  let z := sin theta * radius in
  mret (Vector3.new x y z).

Definition calculateInitialVelocity (position : Vector3.t) (respawn : bool)
  : Vector3.t :=
  let radialVector := Vector3.copy position in
  let distance := Vector3.length radialVector in
  let orbitalSpeed := sqrt ((GRAVITATIONAL_CONSTANT * SUN_MASS) / distance) in
  let upVector := Vector3.new 0 1 0 in
  let velocity :=
    Vector3.multiplyScalar
      (Vector3.multiplyScalar
         (Vector3.normalize (Vector3.crossVectors radialVector upVector))
         orbitalSpeed)
      20000 in
  if respawn then Vector3.multiplyScalar velocity 0.75 else velocity.

(** ** Trail store ([TrailProvider]) *)

(** The two state updaters, as functions of the previous [trails] object. *)
Definition addTrailPoint (key : string) (position : Vector3.t)
    (prevTrails : gmap string (list Vector3.t))
  : gmap string (list Vector3.t) :=
  let trail := default [] (prevTrails !! key) in
  let newTrail :=
    if (300 <=? List.length trail)%nat then drop 1 trail else trail in
  let lastPoint := last newTrail in
  if match lastPoint with
     | None => true
     | Some p => bool_decide (Vector3.distanceToSquared p position > 1)
     end
  then <[key := newTrail ++ [Vector3.clone position]]> prevTrails
  else prevTrails.

Definition clearTrail (key : string)
    (prevTrails : gmap string (list Vector3.t))
  : gmap string (list Vector3.t) :=
  delete key prevTrails.

(** A call made on the trail context. *)
Inductive TrailCall : Type :=
  | AddTrailPoint (key : string) (position : Vector3.t)
  | ClearTrail (key : string).

Definition applyTrailCall (c : TrailCall)
    (trails : gmap string (list Vector3.t)) : gmap string (list Vector3.t) :=
  match c with
  | AddTrailPoint k p => addTrailPoint k p trails
  | ClearTrail k => clearTrail k trails
  end.

(** The state after a sequence of calls, oldest first, from the initial
    [useState({})]. *)
Definition runTrailCalls (cs : list TrailCall) : gmap string (list Vector3.t) :=
  foldl (fun trails c => applyTrailCall c trails) ∅ cs.

(** ** Rigid bodies of the physics engine *)
Inductive RigidBodyType : Type :=
  | Dynamic
  | Fixed
  | KinematicPositionBased
  | KinematicVelocityBased.

Inductive BodyType : Type := Sun | Planet | Moon | Earth.

#[global] Instance BodyType_eq_dec : EqDecision BodyType.
Proof. solve_decision. Defined.

(** [userData]: the Sun carries [{ type: 'Sun' }] only, an orbiting body
    [{ type, key }]. *)
Record UserData : Type := mkUserData { type : BodyType; key : option string }.

Record RigidBody : Type := mkRigidBody {
  bodyType : RigidBodyType;
  mass : R;
  translation : Vector3.t;
  linvel : Vector3.t;
  angvel : Vector3.t;
  sleeping : bool;
  userData : option UserData
}.

Definition isDynamic (b : RigidBody) : bool :=
  match bodyType b with Dynamic => true | _ => false end.

(** The method call [b.isSleeping()]. *)
Definition isSleeping (b : RigidBody) : bool := sleeping b.

(** The property read [b.isSleeping], without a call: the method itself. *)
Definition isSleeping_property (b : RigidBody) : JsValue := JsFunction.

Definition wake (wakeUp : bool) (b : RigidBody) : bool :=
  if wakeUp then false else sleeping b.

Definition setLinvel (v : Vector3.t) (wakeUp : bool) (b : RigidBody)
  : RigidBody :=
  mkRigidBody (bodyType b) (mass b) (translation b) v (angvel b)
              (wake wakeUp b) (userData b).

Definition setTranslation (v : Vector3.t) (wakeUp : bool) (b : RigidBody)
  : RigidBody :=
  mkRigidBody (bodyType b) (mass b) v (linvel b) (angvel b)
              (wake wakeUp b) (userData b).

Definition setAngvel (v : Vector3.t) (wakeUp : bool) (b : RigidBody)
  : RigidBody :=
  mkRigidBody (bodyType b) (mass b) (translation b) (linvel b) v
              (wake wakeUp b) (userData b).

(** The assignment [b.userData.key = k]. *)
Definition setUserDataKey (k : string) (b : RigidBody) : RigidBody :=
  mkRigidBody (bodyType b) (mass b) (translation b) (linvel b) (angvel b)
              (sleeping b)
              (match userData b with
               | Some u => Some (mkUserData (type u) (Some k))
               | None => None
               end).

(** A property name: [undefined] is coerced to the string. *)
Definition propertyKey (k : option string) : string :=
  default "undefined"%string k.

(** The [useFrame] callback of [Planets]: one trail point per body that
    has [userData], under the body's key. *)
Definition recordTrails (planets : option (list RigidBody))
    (trails : gmap string (list Vector3.t)) : gmap string (list Vector3.t) :=
  match planets with
  | None => trails
  | Some ps =>
    foldl (fun tr planet =>
             match userData planet with
             | Some u =>
               let position := translation planet in
               addTrailPoint (propertyKey (key u))
                 (Vector3.new (Vector3.x position) (Vector3.y position)
                              (Vector3.z position))
                 tr
             | None => tr
             end)
          trails ps
  end.

(** ** The gravity hook ([useGravity]) *)
Record World : Type := mkWorld { bodies : option (list RigidBody) }.

Fixpoint forEach {S : Type} (f : S -> nat -> Checked S) (handles : list nat)
    (s : S) : Checked S :=
  match handles with
  | [] => Ok s
  | h :: rest => s' ← f s h; forEach f rest s'
  end.

Section Gravity.

(** The engine's [applyImpulse(impulse, wakeUp)], left to the engine. *)
Variable applyImpulse : Vector3.t -> bool -> RigidBody -> RigidBody.

(** The callback of the inner [forEach], for the current body [ci]. *)
Definition innerCallback (ci : nat) (currentMass : R)
    (currentPosition : Vector3.t) (w : list RigidBody) (oi : nat)
  : Checked (list RigidBody) :=
  match w !! oi with
  | None => Ok w
  | Some otherBody =>
    if bool_decide (ci = oi) || isSleeping otherBody
       || negb (isDynamic otherBody)
    then Ok w
    else
      let otherMass := mass otherBody in
      if bool_decide (otherMass = 0) then Ok w
      else
        let otherPositionVec := translation otherBody in
        let otherPosition :=
          Vector3.new (Vector3.x otherPositionVec)
                      (Vector3.y otherPositionVec)
                      (Vector3.z otherPositionVec) in
        let distance := Vector3.distanceTo currentPosition otherPosition in
        if bool_decide (distance = 0) then Ok w
        else
          forceMagnitude ←
            chk_div (GRAVITATIONAL_CONSTANT * currentMass * otherMass)
                    (Math_pow (distance * SCALE_FACTOR) 2);
          direction ←
            Vector3.normalize_chk
              (Vector3.subVectors otherPosition currentPosition);
          let impulseVector :=
            Vector3.multiplyScalar direction forceMagnitude in
          Ok (alter (applyImpulse impulseVector true) ci w)
  end.

(** The callback of the outer [forEach]. *)
Definition outerCallback (w : list RigidBody) (ci : nat)
  : Checked (list RigidBody) :=
  match w !! ci with
  | None => Ok w
  | Some currentBody =>
    if truthy (isSleeping_property currentBody)
       || negb (isDynamic currentBody)
    then Ok w
    else
      let currentMass := mass currentBody in
      if bool_decide (currentMass = 0) then Ok w
      else
        let currentPositionVec := translation currentBody in
        let currentPosition :=
          Vector3.new (Vector3.x currentPositionVec)
                      (Vector3.y currentPositionVec)
                      (Vector3.z currentPositionVec) in
        forEach (innerCallback ci currentMass currentPosition)
                (seq 0 (List.length w)) w
  end.

(** One pass over the body set. *)
Definition gravityPass (w : list RigidBody) : Checked (list RigidBody) :=
  forEach outerCallback (seq 0 (List.length w)) w.

(** The function given to [useBeforePhysicsStep]. *)
Definition useGravity (world : option World) : Checked (option World) :=
  match world with
  | None => Ok world
  | Some wd =>
    match bodies wd with
    | None => Ok world
    | Some w => w' ← gravityPass w; Ok (Some (mkWorld (Some w')))
    end
  end.

End Gravity.

(** ** The orbiting bodies ([Planets]) *)

(** An explosion request: [triggerExplosion(position, lookAt)]. *)
Record Explosion : Type := mkExplosion {
  position : Vector3.t;
  lookAt : Vector3.t
}.

(** What [createBodyData] returns. *)
Record BodyData : Type := mkBodyData {
  bd_key : string;
  bd_position : Vector3.t;
  bd_linearVelocity : Vector3.t;
  bd_scale : R;
  bd_userData : UserData
}.

Record Options : Type := mkOptions {
  respawn : option bool;
  typeOverride : option BodyType;
  scaleOverride : option R
}.

(** The payload of a collision event.  A rigid body is referred to by its
    handle in the store. *)
Record Collider : Type := mkCollider { rigidBody : option nat }.

Record CollisionEvent : Type := mkCollisionEvent {
  manifold : option (list Vector3.t);
  target : option Collider;
  other : option Collider
}.

(** [manifold.solverContactPoint(i)]: [null] when there is none. *)
Definition solverContactPoint (m : list Vector3.t) (i : nat)
  : option Vector3.t := m !! i.

(** Everything the component's callbacks read and write. *)
Record Scene : Type := mkScene {
  store : list RigidBody;
  explosions : list Explosion;
  trails : gmap string (list Vector3.t);
  random : Random
}.

(** [c?.rigidBody], with the body it refers to. *)
Definition rigidBodyOf (s : Scene) (c : option Collider)
  : option (nat * RigidBody) :=
  match c with
  | Some c' =>
    match rigidBody c' with
    | Some h =>
      match store s !! h with
      | Some b => Some (h, b)
      | None => None
      end
    | None => None
    end
  | None => None
  end.

Definition triggerExplosion (position lookAt : Vector3.t)
    (es : list Explosion) : list Explosion :=
  es ++ [mkExplosion position lookAt].

Definition validDynamicTypes : list BodyType := [Planet; Moon; Earth].

Definition includes (l : list BodyType) (ty : BodyType) : bool :=
  bool_decide (ty ∈ l).

Section Planets.

(** [Number.prototype.toString(36)], left to the runtime. *)
Variable toString36 : R -> string.

Definition createBodyData (options : Options) : Rand BodyData :=
  let respawn := default false (respawn options) in
  r ← Math_random;
  let key := ("instance_" ++ substring 2 9 (toString36 r))%string in
  position ← calculateInitialPosition respawn;
  let linearVelocity := calculateInitialVelocity position respawn in
  scale ← (match scaleOverride options with
           | Some s => mret s
           | None => r' ← Math_random; mret (0.5 + r' * 1.5)
           end);
  let type := default Planet (typeOverride options) in
  mret (mkBodyData key position linearVelocity scale
                   (mkUserData type (Some key))).

Definition handleCollision (ev : CollisionEvent) (s : Scene) : Scene :=
  match manifold ev, rigidBodyOf s (target ev), rigidBodyOf s (other ev) with
  | Some manifold, Some (t, targetRigidBody), Some (o, otherRigidBody) =>
    match userData targetRigidBody, userData otherRigidBody with
    | Some targetUserData, Some otherUserData =>
      let targetMass := mass targetRigidBody in
      let otherMass := mass otherRigidBody in
      if bool_decide (otherMass > targetMass) && bool_decide (targetMass > 0)
      then
        match solverContactPoint manifold 0 with
        | None => s
        | Some collisionPointVec =>
          let collisionPoint := Vector3.copy collisionPointVec in
          let targetPosition := Vector3.copy (translation targetRigidBody) in
          let otherPosition := Vector3.copy (translation otherRigidBody) in
          let targetVelocity := Vector3.copy (linvel targetRigidBody) in
          let otherVelocity := Vector3.copy (linvel otherRigidBody) in
          let combinedMass := targetMass + otherMass in
          let combinedVelocity :=
            Vector3.divideScalar
              (Vector3.addScaledVector
                 (Vector3.addScaledVector Vector3.zero
                                          targetVelocity targetMass)
                 otherVelocity otherMass)
              combinedMass in
          let store1 :=
            if includes validDynamicTypes (type otherUserData)
            then alter (setLinvel (Vector3.copy combinedVelocity) true)
                       o (store s)
            else store s in
          let explosions1 :=
            triggerExplosion collisionPoint targetPosition (explosions s) in
          let explosions2 :=
            if bool_decide (type otherUserData = Moon)
            then triggerExplosion collisionPoint otherPosition explosions1
            else explosions1 in
          let trails1 :=
            clearTrail (propertyKey (key targetUserData)) (trails s) in
          let '(newBodyData, random1) :=
            createBodyData (mkOptions (Some true) (Some Planet) None)
                           (random s) in
          let store2 := alter (setUserDataKey (bd_key newBodyData)) t store1 in
          let store3 :=
            alter (setTranslation (bd_position newBodyData) true) t store2 in
          let store4 :=
            alter (setLinvel (bd_linearVelocity newBodyData) true) t store3 in
          let '(r, random2) := Math_random random1 in
          let store5 :=
            alter (setAngvel (Vector3.new 0 (r * 0.2 - 0.1) 0) true)
                  t store4 in
          mkScene store5 explosions2 trails1 random2
        end
      else s
    | _, _ => s
    end
  | _, _, _ => s
  end.

End Planets.

(** ** The stand-alone [components/Planets.jsx] *)
Module PlanetsJsx.

(** How a call ends: it returns, or a [TypeError] is thrown on a property
    read of [undefined] or [null]; either way with the scene as the
    writes made so far left it. *)
Inductive Completion : Type :=
  | Returned (s : Scene)
  | Threw (s : Scene).

Definition sceneOf (c : Completion) : Scene :=
  match c with Returned s => s | Threw s => s end.

Section Component.

(** The conversion of a number to a string, left to the runtime. *)
Variable numberToString : R -> string.

Definition newPlanet (options : Options) : Rand BodyData :=
  let respawn := default false (respawn options) in
  r ← Math_random;
  let key := ("instance_" ++ numberToString r)%string in
  position ← calculateInitialPosition respawn;
  let linearVelocity := calculateInitialVelocity position respawn in
  scale ← (match scaleOverride options with
           | Some s => mret s
           | None => r' ← Math_random; mret (0.5 + r' * 1.5)
           end);
  let type := default Planet (typeOverride options) in
  mret (mkBodyData key position linearVelocity scale
                   (mkUserData type (Some key))).

Definition handleCollision (ev : CollisionEvent) (s : Scene) : Completion :=
  match target ev, other ev with
  | Some targetCollider, Some otherCollider =>
    match rigidBodyOf s (Some targetCollider),
          rigidBodyOf s (Some otherCollider) with
    | Some (t, targetRigidBody), Some (o, otherRigidBody) =>
      let targetMass := mass targetRigidBody in
      let otherMass := mass otherRigidBody in
      if bool_decide (otherMass > targetMass)
      then
        match manifold ev with
        | None => Threw s
        | Some manifold =>
          match solverContactPoint manifold 0 with
          | None => Threw s
          | Some collisionPointVec =>
            let collisionPoint := Vector3.copy collisionPointVec in
            let targetPosition :=
              Vector3.copy (translation targetRigidBody) in
            let otherPosition :=
              Vector3.copy (translation otherRigidBody) in
            let targetVelocity := linvel targetRigidBody in
            let otherVelocity := linvel otherRigidBody in
            let combinedMass := targetMass + otherMass in
            let combinedVelocity :=
              Vector3.divideScalar
                (Vector3.addScaledVector
                   (Vector3.addScaledVector Vector3.zero
                      (Vector3.copy targetVelocity) targetMass)
                   (Vector3.copy otherVelocity) otherMass)
                combinedMass in
            match userData otherRigidBody with
            | None => Threw s
            | Some otherUserData =>
              let store1 :=
                if includes validDynamicTypes (type otherUserData)
                then alter (setLinvel (Vector3.copy combinedVelocity) false)
                           o (store s)
                else store s in
              let explosions1 :=
                triggerExplosion collisionPoint targetPosition
                                 (explosions s) in
              let explosions2 :=
                if bool_decide (type otherUserData = Moon)
                then triggerExplosion collisionPoint otherPosition
                                      explosions1
                else explosions1 in
              match userData targetRigidBody with
              | None => Threw (mkScene store1 explosions2 (trails s)
                                       (random s))
              | Some targetUserData =>
                let trails1 :=
                  clearTrail (propertyKey (key targetUserData))
                             (trails s) in
                let '(newPlanetData, random1) :=
                  newPlanet (mkOptions (Some true) None None)
                            (random s) in
                let store2 :=
                  alter (setUserDataKey (bd_key newPlanetData)) t store1 in
                let store3 :=
                  alter (setTranslation (bd_position newPlanetData) false)
                        t store2 in
                let store4 :=
                  alter (setLinvel (bd_linearVelocity newPlanetData) false)
                        t store3 in
                Returned (mkScene store4 explosions2 trails1 random1)
              end
            end
          end
        end
      else Returned s
    | _, _ => Returned s
    end
  | _, _ => Threw s
  end.

End Component.

End PlanetsJsx.

(** ** A scene to run the code on *)

(** The engine's [applyImpulse] on a body: the velocity gains the impulse
    over the mass. *)
Definition impulseOnVelocity (impulse : Vector3.t) (wakeUp : bool)
    (b : RigidBody) : RigidBody :=
  setLinvel (Vector3.addScaledVector (linvel b) impulse (1 / mass b)) wakeUp b.

Definition sunBody : RigidBody :=
  mkRigidBody KinematicPositionBased 14137 Vector3.zero Vector3.zero
              Vector3.zero false (Some (mkUserData Sun None)).

Definition moonBody : RigidBody :=
  mkRigidBody Dynamic 4189 (Vector3.new 100 0 0) (Vector3.new 0 0 3)
              Vector3.zero false
              (Some (mkUserData Moon (Some "instance_moon"%string))).

Definition planetBody : RigidBody :=
  mkRigidBody Dynamic 4 (Vector3.new 112 0 0) (Vector3.new 0 0 (-2))
              Vector3.zero false
              (Some (mkUserData Planet (Some "instance_p"%string))).

Definition zeroDraws : Random := mkRandom (fun _ => 0) 0.

Definition base36 (r : R) : string := "0.k2j8x0q1zw7"%string.

Definition decimal (r : R) : string := "0.4170220047"%string.

Definition exampleScene : Scene :=
  mkScene [sunBody; moonBody; planetBody] []
          (<["instance_moon"%string := [Vector3.new 100 0 0]]> ∅) zeroDraws.

(** The moon (handle 1) runs into the sun (handle 0). *)
Definition moonHitsSun : CollisionEvent :=
  mkCollisionEvent (Some [Vector3.new 15 0 0])
                   (Some (mkCollider (Some 1%nat)))
                   (Some (mkCollider (Some 0%nat))).

(** The planet (handle 2) runs into the moon (handle 1). *)
Definition planetHitsMoon : CollisionEvent :=
  mkCollisionEvent (Some [Vector3.new 110 0 0])
                   (Some (mkCollider (Some 2%nat)))
                   (Some (mkCollider (Some 1%nat))).

(** The band of radii of a spawn that is not an entry:
    [SUN_RADIUS * 3 <= radius < SUN_RADIUS * 3 + SPAWN_RADIUS]. *)
Definition inSpawnBand (p : Vector3.t) : Prop :=
  SUN_RADIUS * 3 <= Vector3.horizontalRadius p
  /\ Vector3.horizontalRadius p < SUN_RADIUS * 3 + SPAWN_RADIUS.

(** The stored type of a body. *)
Definition storedType (b : RigidBody) : option BodyType := type <$> userData b.

(** The stored identity key of a body. *)
Definition storedKey (b : RigidBody) : option string := userData b ≫= key.

(** ** Statements of the specification, for comparison with the code *)

(** The factor applied last by [calculateInitialVelocity]. *)
Definition respawnFactor (respawn : bool) : R := if respawn then 0.75 else 1.

(** The orbital speed law, as the specification words it. *)
Definition spawnSpeed (position : Vector3.t) (respawn : bool) : R :=
  sqrt (GRAVITATIONAL_CONSTANT * SUN_MASS / Vector3.length position)
  * 20000 * respawnFactor respawn.


(** Whether a new position is far enough from the last recorded point of a
    trail to be recorded: always on an empty trail. *)
Definition movedEnough (trail : list Vector3.t) (position : Vector3.t) : bool :=
  match last trail with
  | None => true
  | Some p => bool_decide (Vector3.distanceToSquared p position > 1)
  end.

(** A full trail loses its oldest point before it takes a new one. *)
Definition dropOldest (trail : list Vector3.t) : list Vector3.t :=
  if (300 <=? List.length trail)%nat then drop 1 trail else trail.

(** Every stored trail has at most 300 points. *)
Definition trailsBounded (m : gmap string (list Vector3.t)) : Prop :=
  forall (k : string) (trail : list Vector3.t),
    m !! k = Some trail -> (List.length trail <= 300)%nat.

(** Momentum-conserving velocity of two bodies, as the specification
    words it:
    (v_target * m_target + v_other * m_other) / (m_target + m_other). *)
Definition v_combined (targetBody otherBody : RigidBody) : Vector3.t :=
  let mt := mass targetBody in
  let mo := mass otherBody in
  let vt := linvel targetBody in
  let vo := linvel otherBody in
  Vector3.new
    ((Vector3.x vt * mt + Vector3.x vo * mo) / (mt + mo))
    ((Vector3.y vt * mt + Vector3.y vo * mo) / (mt + mo))
    ((Vector3.z vt * mt + Vector3.z vo * mo) / (mt + mo)).

(** A collision event the resolver does not discard at its defensive
    checks: a manifold with a first contact point, both bodies present with
    their [userData], and a target with a positive mass. *)
Definition wellFormed (ev : CollisionEvent) (s : Scene)
    (t : nat) (targetBody : RigidBody) (targetData : UserData)
    (o : nat) (otherBody : RigidBody) (otherData : UserData)
    (contact : Vector3.t) : Prop :=
  (exists m, manifold ev = Some m /\ solverContactPoint m 0 = Some contact)
  /\ rigidBodyOf s (target ev) = Some (t, targetBody)
  /\ rigidBodyOf s (other ev) = Some (o, otherBody)
  /\ userData targetBody = Some targetData
  /\ userData otherBody = Some otherData
  /\ mass targetBody > 0.

(** A resolved collision: a well-formed event whose [other] body is the
    heavier one, which survives. *)
Definition resolves (ev : CollisionEvent) (s : Scene)
    (t : nat) (targetBody : RigidBody) (targetData : UserData)
    (o : nat) (otherBody : RigidBody) (otherData : UserData)
    (contact : Vector3.t) : Prop :=
  wellFormed ev s t targetBody targetData o otherBody otherData contact
  /\ mass otherBody > mass targetBody.

(** The options the resolver passes to [createBodyData]. *)
Definition respawnOptions : Options := mkOptions (Some true) (Some Planet) None.

(** The four writes the resolver makes to the destroyed body. *)
Definition respawnInto (d : BodyData) (spin : R) (b : RigidBody) : RigidBody :=
  setAngvel (Vector3.new 0 (spin * 0.2 - 0.1) 0) true
    (setLinvel (bd_linearVelocity d) true
       (setTranslation (bd_position d) true
          (setUserDataKey (bd_key d) b))).

(** The explosion requests of one resolved collision. *)
Definition collisionExplosions
    (contact targetPosition otherPosition : Vector3.t) (survivor : BodyType)
  : list Explosion :=
  mkExplosion contact targetPosition
  :: (if bool_decide (survivor = Moon)
      then [mkExplosion contact otherPosition] else []).

(** The body in slot [t] has been destroyed and respawned between [s] and
    [s'], as the specification words it: an explosion has been requested
    at the contact point, looking at the position the body had; the trail
    kept under its key is gone; and the slot holds the same mass with a new
    orbital state: a key of the "instance_" form, a position at the entry
    radius from the vertical axis, a velocity perpendicular to that
    position with the reduced orbital speed, and a spin about the vertical
    axis. *)
Definition destroyedAndRespawned (contact : Vector3.t) (t : nat)
    (s s' : Scene) : Prop :=
  exists before after : RigidBody,
    store s !! t = Some before
    /\ store s' !! t = Some after
    /\ (exists more,
          explosions s'
          = explosions s ++ mkExplosion contact (translation before) :: more)
    /\ (forall k, storedKey before = Some k -> trails s' !! k = None)
    /\ mass after = mass before
    /\ bodyType after = bodyType before
    /\ (exists suffix, storedKey after = Some ("instance_" ++ suffix)%string)
    /\ Vector3.horizontalRadius (translation after) = SPAWN_RADIUS * 1.5
    /\ Vector3.dot (linvel after) (translation after) = 0
    /\ Vector3.length (linvel after)
       = sqrt (GRAVITATIONAL_CONSTANT * SUN_MASS
               / Vector3.length (translation after)) * 20000 * 0.75
    /\ Vector3.x (angvel after) = 0
    /\ Vector3.z (angvel after) = 0.

(** A body is where it was, with the spin and the identity it had. *)
Definition notRespawned (b b' : RigidBody) : Prop :=
  translation b' = translation b
  /\ angvel b' = angvel b
  /\ userData b' = userData b.

(** The three writes [components/Planets.jsx] makes to the destroyed body. *)
Definition respawnIntoJsx (d : BodyData) (b : RigidBody) : RigidBody :=
  setLinvel (bd_linearVelocity d) false
    (setTranslation (bd_position d) false
       (setUserDataKey (bd_key d) b)).

(** The pull of the sun on a body, as the specification words it:
    [F * normalize(d)] with [d] the displacement towards the sun and
    [F = G * m_body * m_sun / (|d| * s)^2]. *)
Definition sunImpulse (sun body : RigidBody) : Vector3.t :=
  let d := Vector3.subVectors (translation sun) (translation body) in
  Vector3.multiplyScalar
    (Vector3.normalize d)
    (GRAVITATIONAL_CONSTANT * mass body * mass sun
     / Math_pow (Vector3.length d * SCALE_FACTOR) 2).

(** The sun contributes its pull to every dynamic body: the inner callback,
    run for a dynamic body against the sun, applies that impulse. *)
Definition sunContributes
    (applyImpulse : Vector3.t -> bool -> RigidBody -> RigidBody)
    (w : list RigidBody) : Prop :=
  forall (s c : nat) (sun body : RigidBody),
    w !! s = Some sun -> storedType sun = Some Sun ->
    w !! c = Some body -> isDynamic body = true ->
    innerCallback applyImpulse c (mass body) (translation body) w s
    = Ok (alter (applyImpulse (sunImpulse sun body) true) c w).

(** The planet (handle 2) touches the moon (handle 1) but the manifold
    holds no solver contact point. *)
Definition planetGrazesMoon : CollisionEvent :=
  mkCollisionEvent (Some [])
                   (Some (mkCollider (Some 2%nat)))
                   (Some (mkCollider (Some 1%nat))).

(** A stream of draws within the range of [Math.random]. *)
Definition unitDraws (g : Random) : Prop :=
  forall n : nat, 0 <= draws g n < 1.

(** ** The bodies created at start-up ([initialInstances]) and their spin *)
Section PlanetsSetup.

(** [Number.prototype.toString(36)], left to the runtime. *)
Variable toString36 : R -> string.

(** The [for] loop of [initialInstances]: one generic planet pushed per
    round. *)
Fixpoint pushPlanets (rounds : nat) (bodies : list BodyData)
  : Rand (list BodyData) :=
  match rounds with
  | O => mret bodies
  | S rounds' =>
    b ← createBodyData toString36 (mkOptions None (Some Planet) None);
    pushPlanets rounds' (bodies ++ [b])
  end.

Definition initialInstances (count : Z) : Rand (list BodyData) :=
  if (0 <? count)%Z
  then
    moon ← createBodyData toString36 (mkOptions None (Some Moon) (Some 5));
    let bodies := [moon] in
    bodies1 ← (if (1 <? count)%Z
               then
                 earth ← createBodyData toString36
                           (mkOptions None (Some Earth) (Some 2.5));
                 mret (bodies ++ [earth])
               else mret bodies);
    let remainingPlanetsCount :=
      Z.max 0 (count - Z.of_nat (List.length bodies1)) in
    pushPlanets (Z.to_nat remainingPlanetsCount) bodies1
  else mret [].

End PlanetsSetup.

(** The callback of the [forEach] in the spin effect: one draw, one
    [setAngvel]. *)
Definition spinPlanet (s : Scene) (h : nat) : Scene :=
  let '(r, g) := Math_random (random s) in
  mkScene
    (alter (setAngvel
              (Vector3.multiplyScalar (Vector3.new 0 (r - 0.5) 0) 0.5) true)
           h (store s))
    (explosions s) (trails s) g.

(** The effect run on the instances: [planetsRef.current] is the array of
    the orbiting bodies, here their handles; the first component is the
    [planetCount] state. *)
Definition spinEffect (planetsRef : option (list nat)) (planetCount : nat)
    (s : Scene) : nat * Scene :=
  match planetsRef with
  | None => (planetCount, s)
  | Some planets => (List.length planets, foldl spinPlanet s planets)
  end.

(** An initial spin: about the vertical axis, at a rate in [-0.25, 0.25). *)
Definition initialSpin (v : Vector3.t) : Prop :=
  Vector3.x v = 0 /\ Vector3.z v = 0 /\ -0.25 <= Vector3.y v < 0.25.

(** The impulse the inner callback of the gravity hook computes for the
    current body from another body. *)
Definition gravityImpulse (currentMass : R) (currentPosition : Vector3.t)
    (otherMass : R) (otherPosition : Vector3.t) : Vector3.t :=
  Vector3.multiplyScalar
    (Vector3.normalize (Vector3.subVectors otherPosition currentPosition))
    (GRAVITATIONAL_CONSTANT * currentMass * otherMass
     / Math_pow (Vector3.distanceTo currentPosition otherPosition
                 * SCALE_FACTOR) 2).

(** Each point of a trail lies at a squared distance above 1 from the
    point recorded before it. *)
Fixpoint spaced (trail : list Vector3.t) : Prop :=
  match trail with
  | [] => True
  | p :: rest =>
    match rest with
    | [] => True
    | q :: _ => Vector3.distanceToSquared p q > 1 /\ spaced rest
    end
  end.

(** Every stored trail is spaced. *)
Definition trailsSpaced (m : gmap string (list Vector3.t)) : Prop :=
  forall (k : string) (trail : list Vector3.t),
    m !! k = Some trail -> spaced trail.

(** ** The explosion store ([ExplosionProvider]) *)
Module ExplosionProvider.

Record Entry : Type := mkEntry {
  position : Vector3.t;
  lookAt : Vector3.t;
  id : R
}.

(** The state updater queued by [triggerExplosion(position, lookAt)]. *)
Definition triggerExplosion (position lookAt : Vector3.t) (prev : list Entry)
  : Rand (list Entry) :=
  r ← Math_random;
  mret (prev ++ [mkEntry position lookAt r]).

(** The state updater queued by [handleExplosionComplete(id)]. *)
Definition handleExplosionComplete (i : R) (prev : list Entry) : list Entry :=
  filter (fun explosion => id explosion <> i) prev.

End ExplosionProvider.

(** ** One explosion ([Explosion]): its frame callback *)
Module ExplosionFrames.

Record Uniforms : Type := mkUniforms { uTime : R; uOpacity : R }.

(** The uniforms of a material just created. *)
Definition initial : Uniforms := mkUniforms 0 1.

(** The [useFrame] callback: the new uniforms and whether [onComplete] was
    called; nothing happens while the material is not there. *)
Definition frame (materialRef : option Uniforms) (delta : R)
  : option Uniforms * bool :=
  match materialRef with
  | None => (None, false)
  | Some u =>
    let uTime' := uTime u + delta * 2 in
    let uOpacity' := uOpacity u - delta * 1.5 in
    (Some (mkUniforms uTime' uOpacity'),
     bool_decide (uOpacity' <= 0))
  end.

(** The component between two renders: the uniforms of its material, and
    whether [materialRef] has been attached to that material. *)
Record Component : Type := mkComponent {
  attached : bool;
  uniforms : Uniforms
}.

(** [materialRef.current]: the material when the ref is attached to it,
    [undefined] otherwise. *)
Definition materialRef_current (c : Component) : option Uniforms :=
  if attached c then Some (uniforms c) else None.

(** The component as it is rendered: [materialRef] comes from [useRef()]
    and is given to no element (the points take [ref={meshRef}] and
    [material={material}]). *)
Definition mounted : Component := mkComponent false initial.

(** One frame of the component: the callback writes through the ref. *)
Definition step (c : Component) (delta : R) : Component * bool :=
  match frame (materialRef_current c) delta with
  | (Some u, done) => (mkComponent (attached c) u, done)
  | (None, done) => (c, done)
  end.

(** The frames of a list of time steps, oldest first: the component at the
    end and, frame by frame, whether [onComplete] was called. *)
Definition frames (deltas : list R) (c : Component) : Component * list bool :=
  foldl (fun '(c0, calls) delta =>
           let '(c1, done) := step c0 delta in (c1, calls ++ [done]))
        (c, []) deltas.

End ExplosionFrames.

(** ** The camera follow ([CameraProvider]) *)
Module Camera.

(** The sixteen elements of a [Matrix4], by index. *)
Definition Matrix4 : Type := nat -> R.

Definition setFromMatrixPosition (m : Matrix4) : Vector3.t :=
  Vector3.new (m 12%nat) (m 13%nat) (m 14%nat).

Definition lerp (this v : Vector3.t) (alpha : R) : Vector3.t :=
  Vector3.new (Vector3.x this + (Vector3.x v - Vector3.x this) * alpha)
              (Vector3.y this + (Vector3.y v - Vector3.y this) * alpha)
              (Vector3.z this + (Vector3.z v - Vector3.z this) * alpha).

(** What the callbacks read of a scene object: the instance matrices of an
    instanced mesh, and the position of the object. *)
Record Object3D : Type := mkObject3D {
  getMatrixAt : option (nat -> Matrix4);
  position : option Vector3.t
}.

Record FocusedObject : Type := mkFocusedObject {
  object : option Object3D;
  instanceId : option nat
}.

Record Controls : Type := mkControls { target : option Vector3.t }.

(** The event given to [handleFocus]. *)
Record FocusEvent : Type := mkFocusEvent {
  event_object : option Object3D;
  event_instanceId : option nat
}.

Record State : Type := mkState {
  cameraTarget : Vector3.t;
  lookingAt : option Vector3.t;
  controls : option Controls;
  focusedObject : option FocusedObject
}.

Definition handleFocus (event : FocusEvent) (st : State) : State :=
  mkState (cameraTarget st) (lookingAt st) (controls st)
          (Some (mkFocusedObject (event_object event)
                                 (event_instanceId event))).

(** The position the camera is to follow, if there is one. *)
Definition targetPositionVec (f : FocusedObject) : option Vector3.t :=
  match instanceId f,
        match object f with Some ob => getMatrixAt ob | None => None end with
  | Some i, Some matrixAt => Some (setFromMatrixPosition (matrixAt i))
  | _, _ =>
    match match object f with Some ob => position ob | None => None end with
    | Some p => Some (Vector3.clone p)
    | None => None
    end
  end.

(** The [useFrame] callback. *)
Definition frame (st : State) : State :=
  match focusedObject st, controls st with
  | Some f, Some c =>
    match targetPositionVec f with
    | Some goal =>
      let smoothness := 0.05 in
      let cameraTarget' := lerp (cameraTarget st) goal smoothness in
      mkState cameraTarget' (Some cameraTarget')
              (Some (mkControls
                       (match target c with
                        | Some _ => Some (Vector3.copy cameraTarget')
                        | None => None
                        end)))
              (focusedObject st)
    | None => st
    end
  | _, _ => st
  end.

(** The focused object is a live object of the scene, which the engine
    moves between frames: [observe live st] is [st] with the object the
    focus refers to reading as [live]. *)
Definition observe (live : Object3D) (st : State) : State :=
  match focusedObject st with
  | Some f =>
    match object f with
    | Some _ =>
      mkState (cameraTarget st) (lookingAt st) (controls st)
              (Some (mkFocusedObject (Some live) (instanceId f)))
    | None => st
    end
  | None => st
  end.

(** The frames over the successive readings of the focused object, oldest
    first. *)
Definition frames (readings : list Object3D) (st : State) : State :=
  foldl (fun st0 live => frame (observe live st0)) st readings.

End Camera.

(** ** The star field ([Stars]) *)
Module Stars.

Definition minDistance : R := 500.

(** The body of the [for] loop that fills the position array, from star
    [i] on. *)
Fixpoint fill (rounds i : nat) (pos : list R) : Rand (list R) :=
  match rounds with
  | O => mret pos
  | S rounds' =>
    r0 ← Math_random;
    let distance := minDistance + r0 * 4500 in
    r1 ← Math_random;
    let theta := r1 * 2 * PI in
    r2 ← Math_random;
    let phi := acos (2 * r2 - 1) in
    let pos1 := <[(i * 3)%nat := distance * sin phi * cos theta]> pos in
    let pos2 := <[(i * 3 + 1)%nat := distance * sin phi * sin theta]> pos1 in
    let pos3 := <[(i * 3 + 2)%nat := distance * cos phi]> pos2 in
    fill rounds' (S i) pos3
  end.

(** The memoised array of [count * 3] coordinates. *)
Definition positions (count : nat) : Rand (list R) :=
  fill count 0 (replicate (count * 3) 0).

(** Star [k] of a position array lies on a sphere about the origin whose
    radius is in [500, 5000). *)
Definition onShell (pos : list R) (k : nat) : Prop :=
  exists x y z d : R,
    pos !! (k * 3)%nat = Some x /\ pos !! (k * 3 + 1)%nat = Some y
    /\ pos !! (k * 3 + 2)%nat = Some z
    /\ minDistance <= d < 5000
    /\ x * x + y * y + z * z = d * d.

End Stars.

(** ** The particles of one explosion ([Explosion]) *)
Module ExplosionParticles.

(** The three attributes of the buffer geometry. *)
Record Geometry : Type := mkGeometry {
  positions : list R;
  velocities : list R;
  sizes : list R
}.

(** The uniforms of the shader material; the colour is kept as the hue,
    saturation and lightness given to [setHSL]. *)
Record Material : Type := mkMaterial {
  uTime : R;
  uSpread : R;
  uColor : R * R * R;
  uOpacity : R
}.

(** The body of the [for] loop, from particle [i] on. *)
Fixpoint fill (spread : R) (rounds i : nat) (geo : Geometry) : Rand Geometry :=
  match rounds with
  | O => mret geo
  | S rounds' =>
    let i3 := (i * 3)%nat in
    r0 ← Math_random;
    let radius := r0 * spread in
    r1 ← Math_random;
    let theta := r1 * PI * 2 in
    r2 ← Math_random;
    r3 ← Math_random;
    let phi := acos (r2 * 2 - 1) * (0.3 + r3 * 0.4) in
    let positions1 := <[i3 := 0]> (positions geo) in
    let positions2 := <[(i3 + 1)%nat := 0]> positions1 in
    let positions3 := <[(i3 + 2)%nat := 0]> positions2 in
    let dirX := radius * cos theta * sin phi in
    let dirY := radius * sin theta * sin phi in
    let dirZ := radius * cos phi in
    r4 ← Math_random;
    let speed := (r4 * 0.8 + 0.2) * (spread * 0.2) in
    let velocities1 := <[i3 := dirX * speed]> (velocities geo) in
    let velocities2 := <[(i3 + 1)%nat := dirY * speed]> velocities1 in
    let velocities3 := <[(i3 + 2)%nat := dirZ * speed]> velocities2 in
    r5 ← Math_random;
    let sizes1 := <[i := r5 * 4 + 2]> (sizes geo) in
    fill spread rounds' (S i) (mkGeometry positions3 velocities3 sizes1)
  end.

(** The memoised geometry and material, with the number of particles. *)
Definition create (spread : R) : Rand (nat * Geometry * Material) :=
  r ← Math_random;
  let count := Z.to_nat (100 + Int_part (r * 50)) in
  let positions := replicate (count * 3) 0 in
  let velocities := replicate (count * 3) 0 in
  let sizes := replicate count 0 in
  rc ← Math_random;
  let explosionColor := (rc * 0.1 + 0.05, 0.9, 0.6) in
  geo ← fill spread count 0 (mkGeometry positions velocities sizes);
  mret (count, geo, mkMaterial 0 spread explosionColor 1.0).

(** Particle [k] starts at the origin, with a size in [2, 6) and a speed of
    at most [0.2 * spread^2]. *)
Definition particle (spread : R) (geo : Geometry) (k : nat) : Prop :=
  positions geo !! (k * 3)%nat = Some 0
  /\ positions geo !! (k * 3 + 1)%nat = Some 0
  /\ positions geo !! (k * 3 + 2)%nat = Some 0
  /\ (exists size, sizes geo !! k = Some size /\ 2 <= size < 6)
  /\ exists vx vy vz v : R,
       velocities geo !! (k * 3)%nat = Some vx
       /\ velocities geo !! (k * 3 + 1)%nat = Some vy
       /\ velocities geo !! (k * 3 + 2)%nat = Some vz
       /\ vx * vx + vy * vy + vz * vz = v * v
       /\ 0 <= v <= 0.2 * (spread * spread).

End ExplosionParticles.

(** * Properties *)

(** ** Vector arithmetic *)

Lemma vector_eq (a b : Vector3.t) :
  Vector3.x a = Vector3.x b -> Vector3.y a = Vector3.y b ->
  Vector3.z a = Vector3.z b -> a = b.
Proof. destruct a, b; simpl; intros; subst; reflexivity. Qed.

Lemma copy_id (v : Vector3.t) : Vector3.copy v = v.
Proof. destruct v; reflexivity. Qed.

Lemma clone_id (v : Vector3.t) : Vector3.clone v = v.
Proof. destruct v; reflexivity. Qed.

Lemma length_nonneg (v : Vector3.t) : 0 <= Vector3.length v.
Proof. apply sqrt_pos. Qed.

Lemma length_multiplyScalar (v : Vector3.t) (s : R) :
  0 <= s ->
  Vector3.length (Vector3.multiplyScalar v s) = Vector3.length v * s.
Proof.
  intros Hs. unfold Vector3.length, Vector3.multiplyScalar; simpl.
  replace (Vector3.x v * s * (Vector3.x v * s)
           + Vector3.y v * s * (Vector3.y v * s)
           + Vector3.z v * s * (Vector3.z v * s))
    with ((Vector3.x v * Vector3.x v + Vector3.y v * Vector3.y v
           + Vector3.z v * Vector3.z v) * (s * s)) by ring.
  rewrite sqrt_mult; [ | nra | nra].
  rewrite (sqrt_square s Hs). reflexivity.
Qed.

Lemma num_or_nonzero (a b : R) : b <> 0 -> num_or a b <> 0.
Proof. intros Hb. unfold num_or. case_bool_decide; assumption. Qed.

Lemma length_normalize (v : Vector3.t) :
  Vector3.length v <> 0 -> Vector3.length (Vector3.normalize v) = 1.
Proof.
  intros Hl. unfold Vector3.normalize, Vector3.divideScalar, num_or.
  case_bool_decide; [contradiction | ].
  pose proof (length_nonneg v) as Hn.
  rewrite length_multiplyScalar.
  - field. assumption.
  - apply Rlt_le. apply Rdiv_lt_0_compat; lra.
Qed.

Lemma normalize_chk_ok (v : Vector3.t) :
  Vector3.normalize_chk v = Ok (Vector3.normalize v).
Proof.
  unfold Vector3.normalize_chk, Vector3.divideScalar_chk, chk_div.
  case_bool_decide as Hz.
  - exfalso. revert Hz. apply num_or_nonzero. lra.
  - reflexivity.
Qed.

Lemma distanceTo_self (a b : Vector3.t) : a = b -> Vector3.distanceTo a b = 0.
Proof.
  intros ->. unfold Vector3.distanceTo, Vector3.distanceToSquared.
  replace ((Vector3.x b - Vector3.x b) * (Vector3.x b - Vector3.x b)
           + (Vector3.y b - Vector3.y b) * (Vector3.y b - Vector3.y b)
           + (Vector3.z b - Vector3.z b) * (Vector3.z b - Vector3.z b))
    with 0 by ring.
  apply sqrt_0.
Qed.

(** ** Constants *)

Lemma Math_round_pos (v : R) : 1 <= v -> 0 < Math_round v.
Proof.
  intros Hv. unfold Math_round, Int_part.
  destruct (archimed (v + 0.5)) as [Hup _].
  rewrite minus_IZR. lra.
Qed.

Lemma SUN_MASS_pos : 0 < SUN_MASS.
Proof.
  unfold SUN_MASS. apply Rdiv_lt_0_compat; [ | lra].
  apply Math_round_pos.
  pose proof PI2_1 as Hpi.
  unfold Math_pow, SUN_RADIUS. nra.
Qed.

Lemma GRAVITATIONAL_CONSTANT_pos : 0 < GRAVITATIONAL_CONSTANT.
Proof. unfold GRAVITATIONAL_CONSTANT. lra. Qed.

(** ** Spawn velocity *)

Lemma cross_up (p : Vector3.t) :
  Vector3.crossVectors (Vector3.copy p) (Vector3.new 0 1 0)
  = Vector3.new (- Vector3.z p) 0 (Vector3.x p).
Proof. apply vector_eq; simpl; ring. Qed.

Lemma length_cross_up (p : Vector3.t) :
  Vector3.length (Vector3.new (- Vector3.z p) 0 (Vector3.x p))
  = Vector3.horizontalRadius p.
Proof.
  unfold Vector3.length, Vector3.horizontalRadius; simpl. f_equal. ring.
Qed.

Lemma horizontalRadius_nonzero (p : Vector3.t) :
  Vector3.x p <> 0 \/ Vector3.z p <> 0 -> Vector3.horizontalRadius p <> 0.
Proof.
  intros Hxz Hr. unfold Vector3.horizontalRadius in Hr.
  apply sqrt_eq_0 in Hr; [ | nra].
  destruct Hxz as [Hx | Hz]; [apply Hx | apply Hz]; nra.
Qed.

Lemma velocity_dot_position (p : Vector3.t) (respawn : bool) :
  Vector3.dot (calculateInitialVelocity p respawn) p = 0.
Proof.
  unfold calculateInitialVelocity. rewrite cross_up.
  unfold Vector3.normalize, Vector3.divideScalar.
  destruct respawn; unfold Vector3.dot, Vector3.multiplyScalar; simpl; ring.
Qed.

Lemma velocity_length (p : Vector3.t) (respawn : bool) :
  Vector3.x p <> 0 \/ Vector3.z p <> 0 ->
  Vector3.length (calculateInitialVelocity p respawn) = spawnSpeed p respawn.
Proof.
  intros Hxz. unfold calculateInitialVelocity, spawnSpeed.
  rewrite cross_up, (copy_id p).
  set (speed := sqrt (GRAVITATIONAL_CONSTANT * SUN_MASS / Vector3.length p)).
  assert (Hs : 0 <= speed) by apply sqrt_pos.
  assert (Hn : Vector3.length
                 (Vector3.normalize
                    (Vector3.new (- Vector3.z p) 0 (Vector3.x p))) = 1).
  { apply length_normalize. rewrite length_cross_up.
    apply horizontalRadius_nonzero, Hxz. }
  destruct respawn; unfold respawnFactor;
    rewrite !length_multiplyScalar, Hn by lra; ring.
Qed.





(** ** Trail store *)

Lemma last_drop_1 (l : list Vector3.t) :
  (2 <= List.length l)%nat -> last (drop 1 l) = last l.
Proof.
  destruct l as [ | a [ | b l']]; simpl; intros Hl; try lia. reflexivity.
Qed.

Lemma last_dropOldest (trail : list Vector3.t) :
  last (dropOldest trail) = last trail.
Proof.
  unfold dropOldest. destruct (300 <=? List.length trail)%nat eqn:Hfull.
  - apply Nat.leb_le in Hfull. apply last_drop_1. lia.
  - reflexivity.
Qed.

Lemma length_dropOldest (trail : list Vector3.t) :
  (List.length trail <= 300)%nat ->
  (List.length (dropOldest trail) < 300)%nat.
Proof.
  intros Hb. unfold dropOldest.
  destruct (300 <=? List.length trail)%nat eqn:Hfull.
  - apply Nat.leb_le in Hfull. rewrite length_drop. lia.
  - apply Nat.leb_gt in Hfull. exact Hfull.
Qed.

Lemma addTrailPoint_unfold (key : string) (position : Vector3.t)
    (prevTrails : gmap string (list Vector3.t)) :
  addTrailPoint key position prevTrails
  = if movedEnough (default [] (prevTrails !! key)) position
    then <[key := dropOldest (default [] (prevTrails !! key)) ++ [position]]>
           prevTrails
    else prevTrails.
Proof.
  unfold addTrailPoint, movedEnough.
  fold (dropOldest (default [] (prevTrails !! key))).
  rewrite last_dropOldest, clone_id. reflexivity.
Qed.

Lemma addTrailPoint_bounded (key : string) (position : Vector3.t)
    (m : gmap string (list Vector3.t)) :
  trailsBounded m -> trailsBounded (addTrailPoint key position m).
Proof.
  intros Hm. rewrite addTrailPoint_unfold.
  destruct (movedEnough _ _); [ | exact Hm].
  intros k trail Hk.
  destruct (decide (key = k)) as [-> | Hne].
  - rewrite lookup_insert_eq in Hk. injection Hk as <-.
    rewrite length_app; simpl.
    assert (Hold : (List.length (default [] (m !! k)) <= 300)%nat).
    { destruct (m !! k) as [old | ] eqn:Hold; simpl; [ | lia].
      exact (Hm k old Hold). }
    pose proof (length_dropOldest _ Hold). lia.
  - rewrite lookup_insert_ne in Hk by exact Hne. exact (Hm k trail Hk).
Qed.

Lemma clearTrail_bounded (key : string) (m : gmap string (list Vector3.t)) :
  trailsBounded m -> trailsBounded (clearTrail key m).
Proof.
  intros Hm k trail Hk. unfold clearTrail in Hk.
  destruct (decide (key = k)) as [-> | Hne].
  - rewrite lookup_delete_eq in Hk. discriminate.
  - rewrite lookup_delete_ne in Hk by exact Hne. exact (Hm k trail Hk).
Qed.

Lemma foldl_trailCalls_bounded (cs : list TrailCall)
    (m : gmap string (list Vector3.t)) :
  trailsBounded m ->
  trailsBounded (foldl (fun trails c => applyTrailCall c trails) m cs).
Proof.
  revert m. induction cs as [ | c cs IH]; intros m Hm; simpl.
  - exact Hm.
  - apply IH. destruct c as [k p | k]; simpl.
    + apply addTrailPoint_bounded, Hm.
    + apply clearTrail_bounded, Hm.
Qed.

Lemma runTrailCalls_bounded (cs : list TrailCall) :
  trailsBounded (runTrailCalls cs).
Proof.
  apply foldl_trailCalls_bounded. intros k trail Hk.
  rewrite lookup_empty in Hk. discriminate.
Qed.

Lemma recordTrails_bounded (planets : option (list RigidBody))
    (m : gmap string (list Vector3.t)) :
  trailsBounded m -> trailsBounded (recordTrails planets m).
Proof.
  destruct planets as [ps | ]; simpl; [ | intros Hm; exact Hm].
  revert m. induction ps as [ | planet ps IH]; intros m Hm; simpl.
  - exact Hm.
  - apply IH. destruct (userData planet); [ | exact Hm].
    apply addTrailPoint_bounded, Hm.
Qed.

(** C10: [addTrailPoint] stores the new position at the end of the key's
    trail exactly when the trail is empty or the position lies at a squared
    distance above 1 from the last recorded point; otherwise it returns the
    whole trails map as it was. *)
Theorem addTrailPoint_decimates (key : string) (position : Vector3.t)
    (prevTrails : gmap string (list Vector3.t)) :
  let trail := default [] (prevTrails !! key) in
  (movedEnough trail position = true
   <-> (trail = [] \/ exists p, last trail = Some p
                     /\ Vector3.distanceToSquared p position > 1))
  /\ addTrailPoint key position prevTrails
     = if movedEnough trail position
       then <[key := dropOldest trail ++ [position]]> prevTrails
       else prevTrails.
Proof.
  intros trail. split; [ | apply addTrailPoint_unfold].
  unfold movedEnough. destruct (last trail) as [p | ] eqn:Hlast.
  - rewrite bool_decide_eq_true. split.
    + intros Hd. right. exists p. split; [reflexivity | exact Hd].
    + intros [Hnil | [q [Hq Hd]]].
      * rewrite Hnil in Hlast. discriminate.
      * injection Hq as <-. exact Hd.
  - split; [ | reflexivity]. intros _. left.
    apply last_None in Hlast. exact Hlast.
Qed.

(** ** The collision resolver *)

Lemma rigidBodyOf_lookup (s : Scene) (c : option Collider) (h : nat)
    (b : RigidBody) :
  rigidBodyOf s c = Some (h, b) -> store s !! h = Some b.
Proof.
  unfold rigidBodyOf. destruct c as [c' | ]; [ | discriminate].
  destruct (rigidBody c') as [h' | ]; [ | discriminate].
  destruct (store s !! h') as [b' | ] eqn:Hl; [ | discriminate].
  intros H. injection H as <- <-. exact Hl.
Qed.

Lemma combinedVelocity_formula (targetBody otherBody : RigidBody) :
  mass targetBody + mass otherBody <> 0 ->
  Vector3.copy
    (Vector3.divideScalar
       (Vector3.addScaledVector
          (Vector3.addScaledVector Vector3.zero
             (Vector3.copy (linvel targetBody)) (mass targetBody))
          (Vector3.copy (linvel otherBody)) (mass otherBody))
       (mass targetBody + mass otherBody))
  = v_combined targetBody otherBody.
Proof.
  intros Hm. apply vector_eq; simpl; field; exact Hm.
Qed.

Section PlanetsFacts.

Variable toString36 : R -> string.

Lemma createBodyData_respawn (g : Random) :
  createBodyData toString36 respawnOptions g
  = (let position :=
       Vector3.new
         (cos (draws g (S (cursor g)) * PI * 2) * (SPAWN_RADIUS * 1.5))
         (draws g (S (S (cursor g))) * 10)
         (sin (draws g (S (cursor g)) * PI * 2) * (SPAWN_RADIUS * 1.5)) in
     let key :=
       ("instance_"
        ++ substring 2 9 (toString36 (draws g (cursor g))))%string in
     (mkBodyData key position (calculateInitialVelocity position true)
        (0.5 + draws g (S (S (S (cursor g)))) * 1.5)
        (mkUserData Planet (Some key)),
      mkRandom (draws g) (S (S (S (S (cursor g))))))).
Proof. reflexivity. Qed.

Lemma handleCollision_resolved (ev : CollisionEvent) (s : Scene)
    (t : nat) (targetBody : RigidBody) (targetData : UserData)
    (o : nat) (otherBody : RigidBody) (otherData : UserData)
    (contact : Vector3.t) :
  resolves ev s t targetBody targetData o otherBody otherData contact ->
  let d := fst (createBodyData toString36 respawnOptions (random s)) in
  let spin := draws (random s) (4 + cursor (random s)) in
  handleCollision toString36 ev s
  = mkScene
      (alter (respawnInto d spin) t
         (if includes validDynamicTypes (type otherData)
          then alter (setLinvel (v_combined targetBody otherBody) true)
                     o (store s)
          else store s))
      (explosions s
       ++ collisionExplosions contact (translation targetBody)
            (translation otherBody) (type otherData))
      (clearTrail (propertyKey (key targetData)) (trails s))
      (mkRandom (draws (random s)) (5 + cursor (random s))).
Proof.
  intros ((( m & Hm & Hc) & Ht & Ho & Htu & Hou & Hpos) & Hgt) d spin.
  unfold handleCollision.
  rewrite Hm, Ht, Ho, Htu, Hou, Hc.
  rewrite (bool_decide_eq_true_2 _ Hgt), (bool_decide_eq_true_2 _ Hpos).
  simpl andb. cbv iota.
  rewrite combinedVelocity_formula by lra.
  subst d spin. rewrite createBodyData_respawn.
  rewrite !copy_id. cbv zeta. simpl.
  f_equal.
  - rewrite !list_alter_alter_eq. reflexivity.
  - unfold collisionExplosions, triggerExplosion.
    case_bool_decide; [rewrite <- app_assoc | ]; reflexivity.
Qed.

Lemma handleCollision_unresolved (ev : CollisionEvent) (s : Scene)
    (t : nat) (targetBody : RigidBody) (targetData : UserData)
    (o : nat) (otherBody : RigidBody) (otherData : UserData)
    (contact : Vector3.t) :
  wellFormed ev s t targetBody targetData o otherBody otherData contact ->
  ~ mass otherBody > mass targetBody ->
  handleCollision toString36 ev s = s.
Proof.
  intros (( m & Hm & Hc) & Ht & Ho & Htu & Hou & Hpos) Hle.
  unfold handleCollision.
  rewrite Hm, Ht, Ho, Htu, Hou.
  rewrite (bool_decide_eq_false_2 _ Hle). reflexivity.
Qed.

(** The resolver leaves the scene as it is unless the event passes every
    guard. *)
Lemma handleCollision_mutates_only_resolved (ev : CollisionEvent) (s : Scene) :
  handleCollision toString36 ev s <> s ->
  exists t targetBody targetData o otherBody otherData contact,
    resolves ev s t targetBody targetData o otherBody otherData contact.
Proof.
  unfold handleCollision.
  destruct (manifold ev) as [m | ] eqn:Hm; [ | congruence].
  destruct (rigidBodyOf s (target ev)) as [[t tb] | ] eqn:Ht; [ | congruence].
  destruct (rigidBodyOf s (other ev)) as [[o ob] | ] eqn:Ho; [ | congruence].
  destruct (userData tb) as [td | ] eqn:Htu; [ | congruence].
  destruct (userData ob) as [od | ] eqn:Hou; [ | congruence].
  destruct (bool_decide (mass ob > mass tb)) eqn:Hgt; [ | simpl; congruence].
  destruct (bool_decide (mass tb > 0)) eqn:Hpos; [ | simpl; congruence].
  destruct (solverContactPoint m 0) as [cp | ] eqn:Hc; [ | simpl; congruence].
  intros _. apply bool_decide_eq_true in Hgt, Hpos.
  exists t, tb, td, o, ob, od, cp.
  split; [ | exact Hgt].
  split; [exists m; split; [exact Hm | exact Hc] | ].
  repeat split; assumption.
Qed.

Lemma handleCollision_mutates (ev : CollisionEvent) (s : Scene)
    (t : nat) (targetBody : RigidBody) (targetData : UserData)
    (o : nat) (otherBody : RigidBody) (otherData : UserData)
    (contact : Vector3.t) :
  resolves ev s t targetBody targetData o otherBody otherData contact ->
  handleCollision toString36 ev s <> s.
Proof.
  intros Hr Heq.
  apply (f_equal (fun sc => cursor (random sc))) in Heq.
  rewrite (handleCollision_resolved _ _ _ _ _ _ _ _ _ Hr) in Heq.
  simpl in Heq. lia.
Qed.

Lemma resolves_distinct (ev : CollisionEvent) (s : Scene)
    (t : nat) (targetBody : RigidBody) (targetData : UserData)
    (o : nat) (otherBody : RigidBody) (otherData : UserData)
    (contact : Vector3.t) :
  resolves ev s t targetBody targetData o otherBody otherData contact ->
  t <> o.
Proof.
  intros ((_ & Ht & Ho & _) & Hgt) Heq. subst o.
  apply rigidBodyOf_lookup in Ht, Ho.
  rewrite Ht in Ho. injection Ho as <-. lra.
Qed.

(** The survivor's slot after a resolved collision. *)
Lemma handleCollision_other (ev : CollisionEvent) (s : Scene)
    (t : nat) (targetBody : RigidBody) (targetData : UserData)
    (o : nat) (otherBody : RigidBody) (otherData : UserData)
    (contact : Vector3.t) :
  resolves ev s t targetBody targetData o otherBody otherData contact ->
  store (handleCollision toString36 ev s) !! o
  = Some (if includes validDynamicTypes (type otherData)
          then setLinvel (v_combined targetBody otherBody) true otherBody
          else otherBody).
Proof.
  intros Hr. pose proof (resolves_distinct _ _ _ _ _ _ _ _ _ Hr) as Hne.
  rewrite (handleCollision_resolved _ _ _ _ _ _ _ _ _ Hr). simpl.
  rewrite list_lookup_alter_ne by exact Hne.
  destruct Hr as ((_ & _ & Ho & _) & _). apply rigidBodyOf_lookup in Ho.
  destruct (includes validDynamicTypes (type otherData)).
  - rewrite list_lookup_alter_eq, Ho. reflexivity.
  - exact Ho.
Qed.

(** The destroyed body's slot after a resolved collision. *)
Lemma handleCollision_target (ev : CollisionEvent) (s : Scene)
    (t : nat) (targetBody : RigidBody) (targetData : UserData)
    (o : nat) (otherBody : RigidBody) (otherData : UserData)
    (contact : Vector3.t) :
  resolves ev s t targetBody targetData o otherBody otherData contact ->
  store (handleCollision toString36 ev s) !! t
  = Some (respawnInto
            (fst (createBodyData toString36 respawnOptions (random s)))
            (draws (random s) (4 + cursor (random s)))
            targetBody).
Proof.
  intros Hr. pose proof (resolves_distinct _ _ _ _ _ _ _ _ _ Hr) as Hne.
  rewrite (handleCollision_resolved _ _ _ _ _ _ _ _ _ Hr). simpl.
  rewrite list_lookup_alter_eq.
  destruct Hr as ((_ & Ht & _) & _). apply rigidBodyOf_lookup in Ht.
  destruct (includes validDynamicTypes (type otherData)).
  - rewrite list_lookup_alter_ne by (intros E; apply Hne; symmetry; exact E).
    rewrite Ht. reflexivity.
  - rewrite Ht. reflexivity.
Qed.

End PlanetsFacts.

Lemma includes_validDynamicTypes (ty : BodyType) :
  includes validDynamicTypes ty = bool_decide (ty <> Sun).
Proof.
  unfold includes, validDynamicTypes.
  destruct ty.
  - rewrite bool_decide_eq_false_2
      by (rewrite !elem_of_cons, elem_of_nil; intuition discriminate).
    rewrite bool_decide_eq_false_2 by (intros H; apply H; reflexivity).
    reflexivity.
  - rewrite !bool_decide_eq_true_2; [reflexivity | discriminate | set_solver].
  - rewrite !bool_decide_eq_true_2; [reflexivity | discriminate | set_solver].
  - rewrite !bool_decide_eq_true_2; [reflexivity | discriminate | set_solver].
Qed.

Lemma storedType_respawnInto (d : BodyData) (spin : R) (b : RigidBody) :
  storedType (respawnInto d spin b) = storedType b.
Proof. unfold storedType; simpl. destruct (userData b); reflexivity. Qed.

Lemma storedKey_respawnInto (d : BodyData) (spin : R) (b : RigidBody) :
  is_Some (userData b) -> storedKey (respawnInto d spin b) = Some (bd_key d).
Proof. intros [u Hu]. unfold storedKey; simpl. rewrite Hu. reflexivity. Qed.

Lemma horizontalRadius_circle (theta radius yy : R) :
  0 <= radius ->
  Vector3.horizontalRadius
    (Vector3.new (cos theta * radius) yy (sin theta * radius)) = radius.
Proof.
  intros Hr. unfold Vector3.horizontalRadius; simpl.
  replace (cos theta * radius * (cos theta * radius)
           + sin theta * radius * (sin theta * radius))
    with ((Rsqr (sin theta) + Rsqr (cos theta)) * (radius * radius))
    by (unfold Rsqr; ring).
  rewrite sin2_cos2, Rmult_1_l. apply sqrt_square, Hr.
Qed.

Lemma moonHitsSun_resolves :
  resolves moonHitsSun exampleScene
           1 moonBody (mkUserData Moon (Some "instance_moon"%string))
           0 sunBody (mkUserData Sun None) (Vector3.new 15 0 0).
Proof.
  split; [split; [ | repeat split] | ].
  - exists [Vector3.new 15 0 0]. split; reflexivity.
  - simpl. lra.
  - simpl. lra.
Qed.

Lemma planetHitsMoon_resolves :
  resolves planetHitsMoon exampleScene
           2 planetBody (mkUserData Planet (Some "instance_p"%string))
           1 moonBody (mkUserData Moon (Some "instance_moon"%string))
           (Vector3.new 110 0 0).
Proof.
  split; [split; [ | repeat split] | ].
  - exists [Vector3.new 110 0 0]. split; reflexivity.
  - simpl. lra.
  - simpl. lra.
Qed.

(** C1: in every resolved collision (the heavier [other] body survives),
    the velocity the resolver computes is
    (v_target * m_target + v_other * m_other) / (m_target + m_other); a
    survivor of type Planet, Moon or Earth ends with exactly that linear
    velocity, and a surviving Sun keeps the velocity it had. *)
Theorem handleCollision_survivor_velocity (toString36 : R -> string)
    (ev : CollisionEvent) (s : Scene)
    (t : nat) (targetBody : RigidBody) (targetData : UserData)
    (o : nat) (otherBody : RigidBody) (otherData : UserData)
    (contact : Vector3.t) :
  resolves ev s t targetBody targetData o otherBody otherData contact ->
  exists survivor,
    store (handleCollision toString36 ev s) !! o = Some survivor
    /\ (type otherData = Planet \/ type otherData = Moon
        \/ type otherData = Earth ->
        linvel survivor = v_combined targetBody otherBody)
    /\ (type otherData = Sun -> linvel survivor = linvel otherBody).
Proof.
  intros Hr. eexists. split.
  - apply (handleCollision_other toString36 _ _ _ _ _ _ _ _ _ Hr).
  - rewrite includes_validDynamicTypes. split.
    + intros Hty. rewrite bool_decide_eq_true_2; [reflexivity | ].
      intros Hsun. rewrite Hsun in Hty.
      destruct Hty as [H | [H | H]]; discriminate H.
    + intros Hsun. rewrite bool_decide_eq_false_2; [reflexivity | ].
      intros Hne. apply Hne, Hsun.
Qed.

Lemma handleCollision_survivor_velocity_witness :
  exists survivor,
    store (handleCollision base36 planetHitsMoon exampleScene) !! 1%nat
    = Some survivor
    /\ (Moon = Planet \/ Moon = Moon \/ Moon = Earth ->
        linvel survivor = v_combined planetBody moonBody)
    /\ (Moon = Sun -> linvel survivor = linvel moonBody).
Proof.
  exact (handleCollision_survivor_velocity base36 _ _ _ _ _ _ _ _ _
           planetHitsMoon_resolves).
Defined.

Lemma length_ge_horizontalRadius (p : Vector3.t) :
  Vector3.horizontalRadius p <= Vector3.length p.
Proof.
  unfold Vector3.horizontalRadius, Vector3.length.
  apply sqrt_le_1_alt. nra.
Qed.

Lemma spawnSpeed_pos (p : Vector3.t) (isRespawn : bool) :
  Vector3.x p <> 0 \/ Vector3.z p <> 0 -> 0 < spawnSpeed p isRespawn.
Proof.
  intros Hxz. unfold spawnSpeed.
  assert (Hl : 0 < Vector3.length p).
  { pose proof (horizontalRadius_nonzero p Hxz) as Hh.
    pose proof (length_ge_horizontalRadius p) as Hle.
    assert (0 <= Vector3.horizontalRadius p) by apply sqrt_pos. lra. }
  assert (Hs : 0 < sqrt (GRAVITATIONAL_CONSTANT * SUN_MASS / Vector3.length p)).
  { apply sqrt_lt_R0. apply Rdiv_lt_0_compat; [ | exact Hl].
    apply Rmult_lt_0_compat;
      [apply GRAVITATIONAL_CONSTANT_pos | apply SUN_MASS_pos]. }
  unfold respawnFactor. destruct isRespawn; nra.
Qed.

Lemma circle_off_axis (theta radius yy : R) :
  0 < radius ->
  Vector3.x (Vector3.new (cos theta * radius) yy (sin theta * radius)) <> 0
  \/ Vector3.z (Vector3.new (cos theta * radius) yy (sin theta * radius)) <> 0.
Proof.
  intros Hr. simpl.
  destruct (Req_dec (cos theta * radius) 0) as [Hx | Hx]; [ | left; exact Hx].
  right. intros Hz.
  pose proof (horizontalRadius_circle theta radius yy (Rlt_le _ _ Hr)) as Hh.
  unfold Vector3.horizontalRadius in Hh; simpl in Hh.
  rewrite Hx, Hz in Hh.
  replace (0 * 0 + 0 * 0) with 0 in Hh by ring.
  rewrite sqrt_0 in Hh. lra.
Qed.

Lemma respawn_data_position (toString36 : R -> string) (g : Random) :
  bd_position (fst (createBodyData toString36 respawnOptions g))
  = Vector3.new
      (cos (draws g (S (cursor g)) * PI * 2) * (SPAWN_RADIUS * 1.5))
      (draws g (S (S (cursor g))) * 10)
      (sin (draws g (S (cursor g)) * PI * 2) * (SPAWN_RADIUS * 1.5)).
Proof. reflexivity. Qed.

Lemma respawn_data_velocity (toString36 : R -> string) (g : Random) :
  bd_linearVelocity (fst (createBodyData toString36 respawnOptions g))
  = calculateInitialVelocity
      (bd_position (fst (createBodyData toString36 respawnOptions g))) true.
Proof. reflexivity. Qed.

Lemma respawnInto_fields (d : BodyData) (spin : R) (b : RigidBody) :
  translation (respawnInto d spin b) = bd_position d
  /\ linvel (respawnInto d spin b) = bd_linearVelocity d
  /\ angvel (respawnInto d spin b) = Vector3.new 0 (spin * 0.2 - 0.1) 0
  /\ isSleeping (respawnInto d spin b) = false.
Proof. repeat split. Qed.

(** C2: for every well-formed collision event, the target is destroyed and
    respawned if and only if mass(other) is strictly greater than
    mass(target), and then the other body is not respawned; in every other
    case, equal masses among them, the scene is returned as it was, no body
    state being written. *)
Theorem handleCollision_respawn_iff (toString36 : R -> string)
    (ev : CollisionEvent) (s : Scene)
    (t : nat) (targetBody : RigidBody) (targetData : UserData)
    (o : nat) (otherBody : RigidBody) (otherData : UserData)
    (contact : Vector3.t) :
  wellFormed ev s t targetBody targetData o otherBody otherData contact ->
  (destroyedAndRespawned contact t s (handleCollision toString36 ev s)
   <-> mass otherBody > mass targetBody)
  /\ (mass otherBody > mass targetBody ->
      exists survivor,
        store (handleCollision toString36 ev s) !! o = Some survivor
        /\ notRespawned otherBody survivor)
  /\ (~ mass otherBody > mass targetBody ->
      handleCollision toString36 ev s = s).
Proof.
  intros Hwf. split; [split | split].
  - intros (before & after & _ & _ & (more & Hex) & _).
    destruct (Rgt_dec (mass otherBody) (mass targetBody)) as [Hgt | Hle];
      [exact Hgt | exfalso].
    rewrite (handleCollision_unresolved toString36 _ _ _ _ _ _ _ _ _ Hwf Hle)
      in Hex.
    apply (f_equal (@List.length Explosion)) in Hex.
    rewrite length_app in Hex. simpl in Hex. lia.
  - intros Hgt.
    assert (Hr : resolves ev s t targetBody targetData o otherBody otherData
                          contact) by (split; assumption).
    destruct Hwf as (_ & Ht & _ & Htu & _).
    set (d := fst (createBodyData toString36 respawnOptions (random s))).
    set (spin := draws (random s) (4 + cursor (random s))).
    destruct (respawnInto_fields d spin targetBody) as (Hp & Hv & Ha & _).
    exists targetBody, (respawnInto d spin targetBody).
    split; [apply (rigidBodyOf_lookup _ _ _ _ Ht) | ].
    split; [apply (handleCollision_target toString36 _ _ _ _ _ _ _ _ _ Hr) | ].
    split.
    { rewrite (handleCollision_resolved toString36 _ _ _ _ _ _ _ _ _ Hr).
      simpl. unfold collisionExplosions. eexists. reflexivity. }
    split.
    { intros k Hk.
      rewrite (handleCollision_resolved toString36 _ _ _ _ _ _ _ _ _ Hr).
      simpl. unfold storedKey in Hk. rewrite Htu in Hk. simpl in Hk.
      rewrite Hk. apply lookup_delete_eq. }
    split; [reflexivity | split; [reflexivity | ]].
    split.
    { exists (substring 2 9
                (toString36 (draws (random s) (cursor (random s))))).
      rewrite storedKey_respawnInto by (rewrite Htu; eexists; reflexivity).
      reflexivity. }
    rewrite Hp, Hv, Ha. unfold d.
    rewrite respawn_data_velocity, respawn_data_position.
    split.
    { apply horizontalRadius_circle. unfold SPAWN_RADIUS. lra. }
    split; [apply velocity_dot_position | ].
    split; [ | split; reflexivity].
    rewrite velocity_length
      by (apply circle_off_axis; unfold SPAWN_RADIUS; lra).
    unfold spawnSpeed, respawnFactor. reflexivity.
  - intros Hgt.
    assert (Hr : resolves ev s t targetBody targetData o otherBody otherData
                          contact) by (split; assumption).
    eexists. split.
    + apply (handleCollision_other toString36 _ _ _ _ _ _ _ _ _ Hr).
    + destruct (includes validDynamicTypes (type otherData));
        repeat split; reflexivity.
  - intros Hle.
    apply (handleCollision_unresolved toString36 _ _ _ _ _ _ _ _ _ Hwf Hle).
Qed.

Lemma handleCollision_respawn_iff_witness :
  (destroyedAndRespawned (Vector3.new 110 0 0) 2 exampleScene
     (handleCollision base36 planetHitsMoon exampleScene)
   <-> mass moonBody > mass planetBody)
  /\ (mass moonBody > mass planetBody ->
      exists survivor,
        store (handleCollision base36 planetHitsMoon exampleScene) !! 1%nat
        = Some survivor
        /\ notRespawned moonBody survivor)
  /\ (~ mass moonBody > mass planetBody ->
      handleCollision base36 planetHitsMoon exampleScene = exampleScene).
Proof.
  exact (handleCollision_respawn_iff base36 _ _ _ _ _ _ _ _ _
           (proj1 planetHitsMoon_resolves)).
Defined.

(** C6: every resolved collision emits one explosion at the contact point
    looking at the destroyed body's position, followed by a second one at
    the contact point looking at the survivor's centre if and only if the
    survivor's type is Moon. *)
Theorem handleCollision_explosions (toString36 : R -> string)
    (ev : CollisionEvent) (s : Scene)
    (t : nat) (targetBody : RigidBody) (targetData : UserData)
    (o : nat) (otherBody : RigidBody) (otherData : UserData)
    (contact : Vector3.t) :
  resolves ev s t targetBody targetData o otherBody otherData contact ->
  (type otherData = Moon ->
   explosions (handleCollision toString36 ev s)
   = explosions s ++ [mkExplosion contact (translation targetBody);
                      mkExplosion contact (translation otherBody)])
  /\ (type otherData <> Moon ->
      explosions (handleCollision toString36 ev s)
      = explosions s ++ [mkExplosion contact (translation targetBody)]).
Proof.
  intros Hr.
  rewrite (handleCollision_resolved toString36 _ _ _ _ _ _ _ _ _ Hr).
  unfold collisionExplosions; simpl. split; intros Hty.
  - rewrite bool_decide_eq_true_2 by exact Hty. reflexivity.
  - rewrite bool_decide_eq_false_2 by exact Hty. reflexivity.
Qed.

Lemma handleCollision_explosions_witness :
  (Moon = Moon ->
   explosions (handleCollision base36 planetHitsMoon exampleScene)
   = explosions exampleScene
     ++ [mkExplosion (Vector3.new 110 0 0) (translation planetBody);
         mkExplosion (Vector3.new 110 0 0) (translation moonBody)])
  /\ (Moon <> Moon ->
      explosions (handleCollision base36 planetHitsMoon exampleScene)
      = explosions exampleScene
        ++ [mkExplosion (Vector3.new 110 0 0) (translation planetBody)]).
Proof.
  exact (handleCollision_explosions base36 _ _ _ _ _ _ _ _ _
           planetHitsMoon_resolves).
Defined.

(** The respawned body keeps the type it had: only its key, position and
    velocities are written. *)
Lemma handleCollision_keeps_type (toString36 : R -> string)
    (ev : CollisionEvent) (s : Scene)
    (t : nat) (targetBody : RigidBody) (targetData : UserData)
    (o : nat) (otherBody : RigidBody) (otherData : UserData)
    (contact : Vector3.t) :
  resolves ev s t targetBody targetData o otherBody otherData contact ->
  exists b,
    store (handleCollision toString36 ev s) !! t = Some b
    /\ storedType b = Some (type targetData)
    /\ storedKey b
       = Some (bd_key (fst (createBodyData toString36 respawnOptions
                                           (random s)))).
Proof.
  intros Hr. eexists. split; [ | split].
  - apply (handleCollision_target toString36 _ _ _ _ _ _ _ _ _ Hr).
  - rewrite storedType_respawnInto.
    destruct Hr as ((_ & _ & _ & Htu & _) & _).
    unfold storedType. rewrite Htu. reflexivity.
  - apply storedKey_respawnInto.
    destruct Hr as ((_ & _ & _ & Htu & _) & _). rewrite Htu.
    eexists; reflexivity.
Qed.

(** C5 (as amended): a respawned body is placed by
    [calculateInitialPosition] called with [isEntry = true] (the [respawn]
    flag is passed as [isEntry]), so its position lies at the fixed entry
    radius [SPAWN_RADIUS * 1.5] from the vertical axis. *)
Theorem respawn_at_entry_radius (toString36 : R -> string)
    (ev : CollisionEvent) (s : Scene)
    (t : nat) (targetBody : RigidBody) (targetData : UserData)
    (o : nat) (otherBody : RigidBody) (otherData : UserData)
    (contact : Vector3.t) :
  resolves ev s t targetBody targetData o otherBody otherData contact ->
  exists b,
    store (handleCollision toString36 ev s) !! t = Some b
    /\ translation b
       = fst (calculateInitialPosition true
                (mkRandom (draws (random s)) (S (cursor (random s)))))
    /\ Vector3.horizontalRadius (translation b) = SPAWN_RADIUS * 1.5.
Proof.
  intros Hr. eexists. split; [ | split].
  - apply (handleCollision_target toString36 _ _ _ _ _ _ _ _ _ Hr).
  - reflexivity.
  - rewrite createBodyData_respawn. simpl.
    apply horizontalRadius_circle. unfold SPAWN_RADIUS. lra.
Qed.

Lemma respawn_at_entry_radius_witness :
  exists b,
    store (handleCollision base36 moonHitsSun exampleScene) !! 1%nat = Some b
    /\ translation b
       = fst (calculateInitialPosition true
                (mkRandom (draws (random exampleScene))
                          (S (cursor (random exampleScene)))))
    /\ Vector3.horizontalRadius (translation b) = SPAWN_RADIUS * 1.5.
Proof.
  exact (respawn_at_entry_radius base36 _ _ _ _ _ _ _ _ _ moonHitsSun_resolves).
Defined.

(** C5 (as stated) fails: the moon respawned after it hit the sun is not
    within [SUN_RADIUS * 3, SUN_RADIUS * 3 + SPAWN_RADIUS) of the axis. *)
Lemma respawn_outside_spawn_band :
  exists b,
    store (handleCollision base36 moonHitsSun exampleScene) !! 1%nat = Some b
    /\ ~ inSpawnBand (translation b).
Proof.
  eexists. split.
  - apply (handleCollision_target base36 _ _ _ _ _ _ _ _ _
             moonHitsSun_resolves).
  - intros [_ Hlt]. rewrite createBodyData_respawn in Hlt. simpl in Hlt.
    rewrite horizontalRadius_circle in Hlt by (unfold SPAWN_RADIUS; lra).
    unfold SPAWN_RADIUS, SUN_RADIUS in Hlt. lra.
Qed.

(** A spawn that is not an entry (the bodies created at start-up) lies in
    the band, for a draw in [0, 1). *)
Lemma initial_spawn_in_band (g : Random) :
  0 <= draws g (S (cursor g)) < 1 ->
  inSpawnBand (fst (calculateInitialPosition false g)).
Proof.
  intros [Hlo Hhi]. unfold inSpawnBand. simpl.
  rewrite horizontalRadius_circle; unfold SPAWN_RADIUS, SUN_RADIUS; lra.
Qed.

(** ** The resolver of [components/Planets.jsx] *)

Lemma PlanetsJsx_handleCollision_resolved (numberToString : R -> string)
    (ev : CollisionEvent) (s : Scene)
    (t : nat) (targetBody : RigidBody) (targetData : UserData)
    (o : nat) (otherBody : RigidBody) (otherData : UserData)
    (contact : Vector3.t) :
  resolves ev s t targetBody targetData o otherBody otherData contact ->
  PlanetsJsx.handleCollision numberToString ev s
  = PlanetsJsx.Returned
      (mkScene
         (alter (respawnIntoJsx
                   (fst (PlanetsJsx.newPlanet numberToString
                           (mkOptions (Some true) None None) (random s))))
                t
                (if includes validDynamicTypes (type otherData)
                 then alter (setLinvel (v_combined targetBody otherBody) false)
                            o (store s)
                 else store s))
         (explosions s
          ++ collisionExplosions contact (translation targetBody)
               (translation otherBody) (type otherData))
         (clearTrail (propertyKey (key targetData)) (trails s))
         (mkRandom (draws (random s)) (4 + cursor (random s)))).
Proof.
  intros ((( m & Hm & Hc) & Ht & Ho & Htu & Hou & Hpos) & Hgt).
  unfold PlanetsJsx.handleCollision.
  destruct (target ev) as [tc | ] eqn:Htc; [ | discriminate Ht].
  destruct (other ev) as [oc | ] eqn:Hoc; [ | discriminate Ho].
  rewrite Ht, Ho, Hm, Hc, Htu, Hou.
  rewrite (bool_decide_eq_true_2 _ Hgt).
  rewrite combinedVelocity_formula by lra.
  rewrite !copy_id. simpl.
  f_equal. f_equal.
  - rewrite !list_alter_alter_eq. reflexivity.
  - unfold collisionExplosions, triggerExplosion.
    case_bool_decide; [rewrite <- app_assoc | ]; reflexivity.
Qed.

(** Without the heavier [other] body the stand-alone resolver returns at
    once; it has no guard on the target's mass. *)
Lemma PlanetsJsx_handleCollision_unresolved (numberToString : R -> string)
    (ev : CollisionEvent) (s : Scene)
    (t o : nat) (targetBody otherBody : RigidBody) :
  rigidBodyOf s (target ev) = Some (t, targetBody) ->
  rigidBodyOf s (other ev) = Some (o, otherBody) ->
  ~ mass otherBody > mass targetBody ->
  PlanetsJsx.handleCollision numberToString ev s = PlanetsJsx.Returned s.
Proof.
  intros Ht Ho Hle. unfold PlanetsJsx.handleCollision.
  destruct (target ev) as [tc | ]; [ | discriminate Ht].
  destruct (other ev) as [oc | ]; [ | discriminate Ho].
  rewrite Ht, Ho, (bool_decide_eq_false_2 _ Hle). reflexivity.
Qed.

Lemma storedType_respawnIntoJsx (d : BodyData) (b : RigidBody) :
  storedType (respawnIntoJsx d b) = storedType b.
Proof. unfold storedType; simpl. destruct (userData b); reflexivity. Qed.

(** C4: the code does not do what the claim says.  The moon destroyed in
    its collision with the sun is still stored with type Moon after its
    respawn, in [SolarSystemCore] and in [components/Planets.jsx] alike:
    the resolver writes the new key, position and velocity, never the type. *)
Theorem respawned_moon_stays_moon :
  (exists b,
     store (handleCollision base36 moonHitsSun exampleScene) !! 1%nat = Some b
     /\ storedType b = Some Moon)
  /\ (exists b,
        store (PlanetsJsx.sceneOf
                 (PlanetsJsx.handleCollision decimal moonHitsSun exampleScene))
          !! 1%nat = Some b
        /\ storedType b = Some Moon).
Proof.
  split.
  - destruct (handleCollision_keeps_type base36 _ _ _ _ _ _ _ _ _
                moonHitsSun_resolves) as (b & Hb & Hty & _).
    exists b. split; assumption.
  - rewrite (PlanetsJsx_handleCollision_resolved decimal _ _ _ _ _ _ _ _ _
               moonHitsSun_resolves).
    eexists. split; [reflexivity | ].
    rewrite storedType_respawnIntoJsx. reflexivity.
Qed.

(** ** The gravity hook *)

Lemma forEach_ok_inv {S : Type} (P : S -> Prop) (f : S -> nat -> Checked S)
    (handles : list nat) (s : S) :
  (forall s0 h, P s0 -> exists s1, f s0 h = Ok s1 /\ P s1) ->
  P s -> exists s', forEach f handles s = Ok s' /\ P s'.
Proof.
  intros Hf. revert s. induction handles as [ | h rest IH]; intros s Hs; simpl.
  - exists s. split; [reflexivity | exact Hs].
  - destruct (Hf s h Hs) as (s1 & Hs1 & HP1). rewrite Hs1. simpl.
    apply IH, HP1.
Qed.

Lemma Math_pow_scaled_nonzero (distance : R) :
  distance <> 0 -> Math_pow (distance * SCALE_FACTOR) 2 <> 0.
Proof.
  intros Hd. unfold Math_pow, SCALE_FACTOR. apply pow_nonzero.
  intros H. apply Hd. lra.
Qed.

Section GravityFacts.

Variable applyImpulse : Vector3.t -> bool -> RigidBody -> RigidBody.

(** The inner callback ends without a division by zero, and writes to no
    slot but the current body's. *)
Lemma innerCallback_ok (ci : nat) (currentMass : R)
    (currentPosition : Vector3.t) (w : list RigidBody) (oi : nat) :
  exists w',
    innerCallback applyImpulse ci currentMass currentPosition w oi = Ok w'
    /\ forall j, j <> ci -> w' !! j = w !! j.
Proof.
  unfold innerCallback.
  destruct (w !! oi) as [otherBody | ]; [ | exists w; split; reflexivity].
  destruct (bool_decide (ci = oi) || isSleeping otherBody
            || negb (isDynamic otherBody));
    [exists w; split; reflexivity | ].
  destruct (bool_decide (mass otherBody = 0));
    [exists w; split; reflexivity | ].
  case_bool_decide as Hd; [exists w; split; reflexivity | ].
  unfold chk_div.
  rewrite (bool_decide_eq_false_2 _ (Math_pow_scaled_nonzero _ Hd)).
  simpl. rewrite normalize_chk_ok. simpl.
  eexists. split; [reflexivity | ].
  intros j Hj. apply list_lookup_alter_ne.
  intros E. apply Hj. symmetry. exact E.
Qed.

(** A body that is not dynamic is skipped as a source. *)
Lemma innerCallback_skips_nondynamic (ci : nat) (currentMass : R)
    (currentPosition : Vector3.t) (w : list RigidBody) (oi : nat)
    (otherBody : RigidBody) :
  w !! oi = Some otherBody -> isDynamic otherBody = false ->
  innerCallback applyImpulse ci currentMass currentPosition w oi = Ok w.
Proof.
  intros Hl Hdyn. unfold innerCallback. rewrite Hl, Hdyn.
  rewrite orb_true_r. reflexivity.
Qed.

(** A body at the current body's position is skipped. *)
Lemma innerCallback_skips_coincident (ci : nat) (currentMass : R)
    (currentPosition : Vector3.t) (w : list RigidBody) (oi : nat)
    (otherBody : RigidBody) :
  w !! oi = Some otherBody -> translation otherBody = currentPosition ->
  innerCallback applyImpulse ci currentMass currentPosition w oi = Ok w.
Proof.
  intros Hl Hpos. unfold innerCallback. rewrite Hl.
  destruct (bool_decide (ci = oi) || isSleeping otherBody
            || negb (isDynamic otherBody)); [reflexivity | ].
  destruct (bool_decide (mass otherBody = 0)); [reflexivity | ].
  rewrite bool_decide_eq_true_2; [reflexivity | ].
  apply distanceTo_self. rewrite <- Hpos.
  destruct (translation otherBody); reflexivity.
Qed.

Lemma outerCallback_ok (w : list RigidBody) (ci : nat) (s : nat)
    (fixedBody : RigidBody) :
  isDynamic fixedBody = false -> w !! s = Some fixedBody ->
  exists w',
    outerCallback applyImpulse w ci = Ok w' /\ w' !! s = Some fixedBody.
Proof.
  intros Hdyn Hs. unfold outerCallback.
  destruct (w !! ci) as [currentBody | ] eqn:Hci;
    [ | exists w; split; [reflexivity | exact Hs]].
  destruct (truthy (isSleeping_property currentBody)
            || negb (isDynamic currentBody)) eqn:Hguard;
    [exists w; split; [reflexivity | exact Hs] | ].
  destruct (bool_decide (mass currentBody = 0));
    [exists w; split; [reflexivity | exact Hs] | ].
  assert (Hne : s <> ci).
  { intros E. subst ci. rewrite Hs in Hci. injection Hci as <-.
    rewrite Hdyn in Hguard. rewrite orb_true_r in Hguard. discriminate. }
  apply (forEach_ok_inv (fun w0 => w0 !! s = Some fixedBody)); [ | exact Hs].
  intros w0 h Hw0.
  destruct (innerCallback_ok ci (mass currentBody)
              (Vector3.new (Vector3.x (translation currentBody))
                           (Vector3.y (translation currentBody))
                           (Vector3.z (translation currentBody)))
              w0 h) as (w1 & Hw1 & Hsame).
  exists w1. split; [exact Hw1 | ]. rewrite (Hsame s Hne). exact Hw0.
Qed.

Lemma outerCallback_total (w : list RigidBody) (ci : nat) :
  exists w', outerCallback applyImpulse w ci = Ok w'.
Proof.
  unfold outerCallback.
  destruct (w !! ci) as [currentBody | ]; [ | exists w; reflexivity].
  destruct (truthy (isSleeping_property currentBody)
            || negb (isDynamic currentBody)); [exists w; reflexivity | ].
  destruct (bool_decide (mass currentBody = 0)); [exists w; reflexivity | ].
  destruct (forEach_ok_inv (fun _ => True)
              (innerCallback applyImpulse ci (mass currentBody)
                 (Vector3.new (Vector3.x (translation currentBody))
                              (Vector3.y (translation currentBody))
                              (Vector3.z (translation currentBody))))
              (seq 0 (List.length w)) w) as (w' & Hw' & _);
    [ | exact I | exists w'; exact Hw'].
  intros w0 h _. destruct (innerCallback_ok ci (mass currentBody)
              (Vector3.new (Vector3.x (translation currentBody))
                           (Vector3.y (translation currentBody))
                           (Vector3.z (translation currentBody)))
              w0 h) as (w1 & Hw1 & _).
  exists w1. split; [exact Hw1 | exact I].
Qed.

Lemma gravityPass_total (w : list RigidBody) :
  exists w', gravityPass applyImpulse w = Ok w'.
Proof.
  destruct (forEach_ok_inv (fun _ => True) (outerCallback applyImpulse)
              (seq 0 (List.length w)) w) as (w' & Hw' & _);
    [ | exact I | exists w'; exact Hw'].
  intros w0 h _. destruct (outerCallback_total w0 h) as (w1 & Hw1).
  exists w1. split; [exact Hw1 | exact I].
Qed.

Lemma gravityPass_keeps_nondynamic (w : list RigidBody) (s : nat)
    (fixedBody : RigidBody) :
  w !! s = Some fixedBody -> isDynamic fixedBody = false ->
  exists w', gravityPass applyImpulse w = Ok w' /\ w' !! s = Some fixedBody.
Proof.
  intros Hs Hdyn.
  apply (forEach_ok_inv (fun w0 => w0 !! s = Some fixedBody)); [ | exact Hs].
  intros w0 h Hw0. apply outerCallback_ok; assumption.
Qed.

(** The outer guard reads the method [isSleeping] without calling it; a
    function is truthy, so the callback returns before any impulse. *)
Lemma outerCallback_returns_early (w : list RigidBody) (ci : nat) :
  outerCallback applyImpulse w ci = Ok w.
Proof.
  unfold outerCallback. destruct (w !! ci); reflexivity.
Qed.

Lemma forEach_outerCallback_noop (handles : list nat) (w : list RigidBody) :
  forEach (outerCallback applyImpulse) handles w = Ok w.
Proof.
  induction handles as [ | h rest IH]; simpl; [reflexivity | ].
  rewrite outerCallback_returns_early. simpl. exact IH.
Qed.

Lemma gravityPass_noop (w : list RigidBody) :
  gravityPass applyImpulse w = Ok w.
Proof. apply forEach_outerCallback_noop. Qed.

End GravityFacts.

(** The hook never fails, whatever the world it is given. *)
Lemma useGravity_total
    (applyImpulse : Vector3.t -> bool -> RigidBody -> RigidBody)
    (world : option World) :
  exists world', useGravity applyImpulse world = Ok world'.
Proof.
  unfold useGravity. destruct world as [wd | ]; [ | eexists; reflexivity].
  destruct (bodies wd) as [w | ]; [ | eexists; reflexivity].
  destruct (gravityPass_total applyImpulse w) as (w' & Hw').
  rewrite Hw'. eexists; reflexivity.
Qed.

(** C3 (as amended): in every gravity pass the sun's velocity is never
    updated by the integrator, the sun not being a dynamic body; and, not
    being dynamic, the sun is skipped as a source as well: the inner
    callback applies no impulse on its account. *)
Theorem sun_outside_gravity
    (applyImpulse : Vector3.t -> bool -> RigidBody -> RigidBody)
    (w : list RigidBody) (s : nat) (sun : RigidBody) :
  w !! s = Some sun -> isDynamic sun = false ->
  (exists w', gravityPass applyImpulse w = Ok w' /\ w' !! s = Some sun)
  /\ (forall (ci : nat) (currentMass : R) (currentPosition : Vector3.t),
        innerCallback applyImpulse ci currentMass currentPosition w s = Ok w).
Proof.
  intros Hs Hdyn. split.
  - apply gravityPass_keeps_nondynamic; assumption.
  - intros ci currentMass currentPosition.
    apply (innerCallback_skips_nondynamic _ _ _ _ _ _ sun); assumption.
Qed.

Lemma sun_outside_gravity_witness :
  (exists w',
     gravityPass impulseOnVelocity [sunBody; moonBody; planetBody] = Ok w'
     /\ w' !! 0%nat = Some sunBody)
  /\ (forall (ci : nat) (currentMass : R) (currentPosition : Vector3.t),
        innerCallback impulseOnVelocity ci currentMass currentPosition
                      [sunBody; moonBody; planetBody] 0
        = Ok [sunBody; moonBody; planetBody]).
Proof.
  exact (sun_outside_gravity impulseOnVelocity [sunBody; moonBody; planetBody]
           0 sunBody eq_refl eq_refl).
Defined.

(** C7: a body at the very position of the current body is skipped by the
    inner callback, which applies no impulse and performs no division; and
    no pass over any body set ever divides by zero. *)
Theorem coincident_pair_skipped
    (applyImpulse : Vector3.t -> bool -> RigidBody -> RigidBody)
    (w : list RigidBody) (ci oi : nat) (currentBody otherBody : RigidBody) :
  w !! ci = Some currentBody -> w !! oi = Some otherBody ->
  translation currentBody = translation otherBody ->
  innerCallback applyImpulse ci (mass currentBody) (translation currentBody)
                w oi = Ok w
  /\ exists w', gravityPass applyImpulse w = Ok w'.
Proof.
  intros _ Ho Hpos. split.
  - apply (innerCallback_skips_coincident _ _ _ _ _ _ otherBody);
      [exact Ho | symmetry; exact Hpos].
  - apply gravityPass_total.
Qed.

Lemma coincident_pair_skipped_witness :
  innerCallback impulseOnVelocity 0 (mass planetBody) (translation planetBody)
                [planetBody; planetBody] 1
  = Ok [planetBody; planetBody]
  /\ exists w', gravityPass impulseOnVelocity [planetBody; planetBody] = Ok w'.
Proof.
  exact (coincident_pair_skipped impulseOnVelocity [planetBody; planetBody]
           0 1 planetBody planetBody eq_refl eq_refl eq_refl).
Defined.

Lemma sun_planet_distance :
  Vector3.length
    (Vector3.subVectors (translation sunBody) (translation planetBody)) = 112.
Proof.
  unfold Vector3.length; simpl.
  replace ((0 - 112) * (0 - 112) + (0 - 0) * (0 - 0) + (0 - 0) * (0 - 0))
    with (112 * 112) by ring.
  apply sqrt_square. lra.
Qed.

(** C3 (as stated) fails: with the sun and one awake dynamic planet 112
    units away, the inner callback run for the planet against the sun does
    not apply the sun's pull, and the whole pass leaves the planet as it
    was. *)
Lemma sun_contributes_counterexample :
  ~ sunContributes impulseOnVelocity [sunBody; planetBody]
  /\ gravityPass impulseOnVelocity [sunBody; planetBody]
     = Ok [sunBody; planetBody].
Proof.
  split; [ | apply gravityPass_noop].
  intros H.
  specialize (H 0%nat 1%nat sunBody planetBody eq_refl eq_refl eq_refl eq_refl).
  rewrite (innerCallback_skips_nondynamic impulseOnVelocity 1%nat
             (mass planetBody) (translation planetBody) [sunBody; planetBody]
             0%nat sunBody eq_refl eq_refl) in H.
  apply (f_equal (fun c : Checked (list RigidBody) =>
                    match c with
                    | Ok l => match l !! 1%nat with
                              | Some b => Vector3.x (linvel b)
                              | None => 0
                              end
                    | DivisionByZero => 0
                    end)) in H.
  change (0 = Vector3.x
                (Vector3.addScaledVector (linvel planetBody)
                   (sunImpulse sunBody planetBody) (1 / mass planetBody)))
    in H.
  unfold sunImpulse, Vector3.normalize, Vector3.divideScalar in H.
  rewrite sun_planet_distance in H.
  unfold num_or in H. rewrite bool_decide_eq_false_2 in H by lra.
  simpl in H.
  assert (HF : 0 < GRAVITATIONAL_CONSTANT * 4 * 14137
                   / (112 * SCALE_FACTOR * (112 * SCALE_FACTOR * 1))).
  { apply Rdiv_lt_0_compat.
    - unfold GRAVITATIONAL_CONSTANT. lra.
    - unfold SCALE_FACTOR. lra. }
  revert H HF.
  generalize (GRAVITATIONAL_CONSTANT * 4 * 14137
              / (112 * SCALE_FACTOR * (112 * SCALE_FACTOR * 1))).
  intros F H HF. lra.
Qed.

(** C9: whatever calls were made on the trail context, the trail stored
    under a key has at most 300 points; a point added to a full trail takes
    the place of the oldest one, which is dropped; [clearTrail] removes the
    key, and the resolver calls it on the destroyed body's key. *)
Theorem trail_capped (cs : list TrailCall) (key : string) :
  (List.length (default [] (runTrailCalls cs !! key)) <= 300)%nat
  /\ (forall (prev : gmap string (list Vector3.t)) (trail : list Vector3.t)
             (position : Vector3.t),
        prev !! key = Some trail -> List.length trail = 300%nat ->
        movedEnough trail position = true ->
        addTrailPoint key position prev !! key
        = Some (drop 1 trail ++ [position]))
  /\ (forall prev : gmap string (list Vector3.t),
        clearTrail key prev !! key = None)
  /\ (forall (toString36 : R -> string) (ev : CollisionEvent) (s : Scene)
             (t : nat) (targetBody : RigidBody) (targetData : UserData)
             (o : nat) (otherBody : RigidBody) (otherData : UserData)
             (contact : Vector3.t),
        resolves ev s t targetBody targetData o otherBody otherData contact ->
        storedKey targetBody = Some key ->
        trails (handleCollision toString36 ev s) !! key = None).
Proof.
  split; [ | split; [ | split]].
  - destruct (runTrailCalls cs !! key) as [trail | ] eqn:Hk; simpl; [ | lia].
    exact (runTrailCalls_bounded cs key trail Hk).
  - intros prev trail position Hk Hfull Hmoved.
    rewrite addTrailPoint_unfold, Hk. simpl. rewrite Hmoved.
    rewrite lookup_insert_eq. unfold dropOldest. rewrite Hfull. reflexivity.
  - intros prev. apply lookup_delete_eq.
  - intros toString36 ev s t tb td o ob od contact Hr Hkey.
    rewrite (handleCollision_resolved toString36 _ _ _ _ _ _ _ _ _ Hr). simpl.
    destruct Hr as ((_ & _ & _ & Htu & _) & _).
    unfold storedKey in Hkey. rewrite Htu in Hkey. simpl in Hkey.
    rewrite Hkey. apply lookup_delete_eq.
Qed.

Lemma trail_capped_witness :
  (List.length
     (default []
        (runTrailCalls [AddTrailPoint "instance_moon" (Vector3.new 100 0 0);
                        AddTrailPoint "instance_moon" (Vector3.new 100 0 2)]
         !! "instance_moon"%string)) <= 300)%nat
  /\ addTrailPoint "instance_moon" (Vector3.new 2 0 0)
       (<["instance_moon"%string := replicate 300 Vector3.zero]> ∅)
     !! "instance_moon"%string
     = Some (drop 1 (replicate 300 Vector3.zero) ++ [Vector3.new 2 0 0])
  /\ trails (handleCollision base36 moonHitsSun exampleScene)
     !! "instance_moon"%string = None.
Proof.
  destruct (trail_capped
              [AddTrailPoint "instance_moon" (Vector3.new 100 0 0);
               AddTrailPoint "instance_moon" (Vector3.new 100 0 2)]
              "instance_moon") as (Hcap & Hfull & _ & Hclear).
  split; [exact Hcap | split].
  - apply Hfull.
    + apply lookup_insert_eq.
    + apply length_replicate.
    + unfold movedEnough.
      replace (last (replicate 300 Vector3.zero)) with (Some Vector3.zero)
        by (vm_compute; reflexivity).
      apply bool_decide_eq_true_2.
      unfold Vector3.distanceToSquared; simpl. lra.
  - apply (Hclear base36 _ _ _ _ _ _ _ _ _ moonHitsSun_resolves). reflexivity.
Defined.

(** * Further properties of the code *)

(** ** The collision resolver, for every event *)

(** The resolver either returns the scene as it is or goes past all its
    guards. *)
Lemma handleCollision_cases (toString36 : R -> string)
    (ev : CollisionEvent) (s : Scene) :
  handleCollision toString36 ev s = s
  \/ exists t targetBody targetData o otherBody otherData contact,
       resolves ev s t targetBody targetData o otherBody otherData contact.
Proof.
  unfold handleCollision.
  destruct (manifold ev) as [m | ] eqn:Hm; [ | left; reflexivity].
  destruct (rigidBodyOf s (target ev)) as [[t tb] | ] eqn:Ht;
    [ | left; reflexivity].
  destruct (rigidBodyOf s (other ev)) as [[o ob] | ] eqn:Ho;
    [ | left; reflexivity].
  destruct (userData tb) as [td | ] eqn:Htu; [ | left; reflexivity].
  destruct (userData ob) as [od | ] eqn:Hou; [ | left; reflexivity].
  destruct (bool_decide (mass ob > mass tb)) eqn:Hgt; [ | left; reflexivity].
  destruct (bool_decide (mass tb > 0)) eqn:Hpos; [ | left; reflexivity].
  destruct (solverContactPoint m 0) as [cp | ] eqn:Hc; [ | left; reflexivity].
  right. apply bool_decide_eq_true in Hgt, Hpos.
  exists t, tb, td, o, ob, od, cp.
  split; [ | exact Hgt].
  split; [exists m; split; [exact Hm | exact Hc] | ].
  repeat split; assumption.
Qed.

Lemma lookup_alter_preserved {B : Type} (g : RigidBody -> B)
    (f : RigidBody -> RigidBody) (l : list RigidBody) (i j : nat) :
  (forall b, g (f b) = g b) -> g <$> alter f i l !! j = g <$> l !! j.
Proof.
  intros Hg. destruct (decide (i = j)) as [-> | Hne].
  - rewrite list_lookup_alter_eq. destruct (l !! j); simpl; [ | reflexivity].
    rewrite Hg. reflexivity.
  - rewrite list_lookup_alter_ne by exact Hne. reflexivity.
Qed.

(** X1: the resolver changes the scene exactly when the event passes every
    guard; an event with a missing manifold, body, [userData] or contact
    point, a massless target or a target at least as heavy as the other
    body is dropped without a trace. *)
Theorem handleCollision_changes_iff_resolved (toString36 : R -> string)
    (ev : CollisionEvent) (s : Scene) :
  handleCollision toString36 ev s <> s
  <-> exists t targetBody targetData o otherBody otherData contact,
        resolves ev s t targetBody targetData o otherBody otherData contact.
Proof.
  split.
  - intros Hne.
    destruct (handleCollision_cases toString36 ev s) as [Heq | Hr];
      [contradiction | exact Hr].
  - intros (t & tb & td & o & ob & od & cp & Hr).
    apply (handleCollision_mutates toString36 _ _ _ _ _ _ _ _ _ Hr).
Qed.

(** X2: no event adds or removes a body, and a body that is neither the
    target nor the other body of the event is left exactly as it was. *)
Theorem handleCollision_keeps_bystanders (toString36 : R -> string)
    (ev : CollisionEvent) (s : Scene) :
  List.length (store (handleCollision toString36 ev s))
  = List.length (store s)
  /\ forall j : nat,
       (forall b, rigidBodyOf s (target ev) <> Some (j, b)) ->
       (forall b, rigidBodyOf s (other ev) <> Some (j, b)) ->
       store (handleCollision toString36 ev s) !! j = store s !! j.
Proof.
  destruct (handleCollision_cases toString36 ev s)
    as [Heq | (t & tb & td & o & ob & od & cp & Hr)].
  - rewrite Heq. split; [reflexivity | intros; reflexivity].
  - rewrite (handleCollision_resolved toString36 _ _ _ _ _ _ _ _ _ Hr). simpl.
    destruct Hr as ((_ & Ht & Ho & _) & _). split.
    + rewrite length_alter.
      destruct (includes validDynamicTypes (type od));
        [apply length_alter | reflexivity].
    + intros j Hnt Hno.
      assert (Htj : t <> j) by (intros ->; apply (Hnt tb); exact Ht).
      assert (Hoj : o <> j) by (intros ->; apply (Hno ob); exact Ho).
      rewrite list_lookup_alter_ne by exact Htj.
      destruct (includes validDynamicTypes (type od)); [ | reflexivity].
      apply list_lookup_alter_ne. exact Hoj.
Qed.

(** X3: no event changes the mass, the engine type (dynamic, kinematic)
    or the stored type of any body. *)
Theorem handleCollision_keeps_mass_and_type (toString36 : R -> string)
    (ev : CollisionEvent) (s : Scene) (j : nat) :
  mass <$> store (handleCollision toString36 ev s) !! j
  = mass <$> store s !! j
  /\ bodyType <$> store (handleCollision toString36 ev s) !! j
     = bodyType <$> store s !! j
  /\ storedType <$> store (handleCollision toString36 ev s) !! j
     = storedType <$> store s !! j.
Proof.
  destruct (handleCollision_cases toString36 ev s)
    as [Heq | (t & tb & td & o & ob & od & cp & Hr)].
  - rewrite Heq. repeat split.
  - rewrite (handleCollision_resolved toString36 _ _ _ _ _ _ _ _ _ Hr). simpl.
    repeat split.
    + rewrite lookup_alter_preserved by reflexivity.
      destruct (includes validDynamicTypes (type od)); [ | reflexivity].
      apply lookup_alter_preserved. reflexivity.
    + rewrite lookup_alter_preserved by reflexivity.
      destruct (includes validDynamicTypes (type od)); [ | reflexivity].
      apply lookup_alter_preserved. reflexivity.
    + rewrite lookup_alter_preserved by (intros b; apply storedType_respawnInto).
      destruct (includes validDynamicTypes (type od)); [ | reflexivity].
      apply lookup_alter_preserved. reflexivity.
Qed.

(** X4: whatever the event, the explosions requested so far stay in place
    with at most two more behind them, no trail appears that was not there,
    and draws are only ever consumed. *)
Theorem handleCollision_only_appends (toString36 : R -> string)
    (ev : CollisionEvent) (s : Scene) :
  (exists added,
     explosions (handleCollision toString36 ev s) = explosions s ++ added
     /\ (List.length added <= 2)%nat)
  /\ trails (handleCollision toString36 ev s) ⊆ trails s
  /\ (cursor (random s)
      <= cursor (random (handleCollision toString36 ev s)))%nat
  /\ draws (random (handleCollision toString36 ev s)) = draws (random s).
Proof.
  destruct (handleCollision_cases toString36 ev s)
    as [Heq | (t & tb & td & o & ob & od & cp & Hr)].
  - rewrite Heq. split; [ | split; [reflexivity | split; [lia | reflexivity]]].
    exists []. rewrite app_nil_r. split; [reflexivity | simpl; lia].
  - rewrite (handleCollision_resolved toString36 _ _ _ _ _ _ _ _ _ Hr). simpl.
    split; [ | split; [ | split; [lia | reflexivity]]].
    + eexists. split; [reflexivity | ].
      unfold collisionExplosions. case_bool_decide; simpl; lia.
    + unfold clearTrail. apply delete_subseteq.
Qed.

(** X5: the body respawned by a resolved collision leaves on an orbit: it
    is placed at the entry radius [SPAWN_RADIUS * 1.5] from the vertical
    axis, its new velocity is perpendicular to its new position, and its
    speed is the reduced orbital speed [sqrt(G * M_sun / r) * 20000 * 0.75]
    at that position, which is not zero. *)
Theorem respawn_on_orbit (toString36 : R -> string)
    (ev : CollisionEvent) (s : Scene)
    (t : nat) (targetBody : RigidBody) (targetData : UserData)
    (o : nat) (otherBody : RigidBody) (otherData : UserData)
    (contact : Vector3.t) :
  resolves ev s t targetBody targetData o otherBody otherData contact ->
  exists b,
    store (handleCollision toString36 ev s) !! t = Some b
    /\ Vector3.horizontalRadius (translation b) = SPAWN_RADIUS * 1.5
    /\ SPAWN_RADIUS * 1.5 <= Vector3.length (translation b)
    /\ Vector3.dot (linvel b) (translation b) = 0
    /\ Vector3.length (linvel b) = spawnSpeed (translation b) true
    /\ 0 < Vector3.length (linvel b).
Proof.
  intros Hr.
  set (d := fst (createBodyData toString36 respawnOptions (random s))).
  destruct (respawnInto_fields d (draws (random s) (4 + cursor (random s)))
              targetBody) as (Hp & Hv & _).
  assert (Hoff : Vector3.x (bd_position d) <> 0
                 \/ Vector3.z (bd_position d) <> 0).
  { unfold d. rewrite respawn_data_position.
    apply circle_off_axis. unfold SPAWN_RADIUS. lra. }
  assert (Hrad : Vector3.horizontalRadius (bd_position d)
                 = SPAWN_RADIUS * 1.5).
  { unfold d. rewrite respawn_data_position.
    apply horizontalRadius_circle. unfold SPAWN_RADIUS. lra. }
  assert (Hvel : bd_linearVelocity d
                 = calculateInitialVelocity (bd_position d) true)
    by apply respawn_data_velocity.
  exists (respawnInto d (draws (random s) (4 + cursor (random s))) targetBody).
  split.
  - apply (handleCollision_target toString36 _ _ _ _ _ _ _ _ _ Hr).
  - rewrite Hp, Hv, Hvel.
    split; [exact Hrad | split; [ | split; [ | split]]].
    + rewrite <- Hrad. apply length_ge_horizontalRadius.
    + apply velocity_dot_position.
    + apply velocity_length, Hoff.
    + rewrite (velocity_length _ _ Hoff). apply spawnSpeed_pos, Hoff.
Qed.

Lemma respawn_on_orbit_witness :
  exists b,
    store (handleCollision base36 planetHitsMoon exampleScene) !! 2%nat = Some b
    /\ Vector3.horizontalRadius (translation b) = SPAWN_RADIUS * 1.5
    /\ SPAWN_RADIUS * 1.5 <= Vector3.length (translation b)
    /\ Vector3.dot (linvel b) (translation b) = 0
    /\ Vector3.length (linvel b) = spawnSpeed (translation b) true
    /\ 0 < Vector3.length (linvel b).
Proof.
  exact (respawn_on_orbit base36 _ _ _ _ _ _ _ _ _ planetHitsMoon_resolves).
Defined.

(** X6: with draws in [0, 1), the body respawned by a resolved collision
    is placed at a height in [0, 10) and spins about the vertical axis only,
    at a rate in [-0.1, 0.1); it is awake. *)
Theorem respawn_height_and_spin (toString36 : R -> string)
    (ev : CollisionEvent) (s : Scene)
    (t : nat) (targetBody : RigidBody) (targetData : UserData)
    (o : nat) (otherBody : RigidBody) (otherData : UserData)
    (contact : Vector3.t) :
  unitDraws (random s) ->
  resolves ev s t targetBody targetData o otherBody otherData contact ->
  exists b,
    store (handleCollision toString36 ev s) !! t = Some b
    /\ 0 <= Vector3.y (translation b) < 10
    /\ Vector3.x (angvel b) = 0 /\ Vector3.z (angvel b) = 0
    /\ -0.1 <= Vector3.y (angvel b) < 0.1
    /\ isSleeping b = false.
Proof.
  intros Hu Hr. eexists. split.
  - apply (handleCollision_target toString36 _ _ _ _ _ _ _ _ _ Hr).
  - destruct (respawnInto_fields
                (fst (createBodyData toString36 respawnOptions (random s)))
                (draws (random s) (4 + cursor (random s))) targetBody)
      as (Hp & _ & Ha & Hs).
    rewrite Hp, Ha, Hs, respawn_data_position. simpl.
    pose proof (Hu (S (S (cursor (random s))))) as Hy.
    pose proof (Hu (S (S (S (S (cursor (random s))))))) as Hw.
    repeat split; try reflexivity; lra.
Qed.

Lemma zeroDraws_unit : unitDraws zeroDraws.
Proof. intros n. simpl. lra. Qed.

Lemma respawn_height_and_spin_witness :
  exists b,
    store (handleCollision base36 planetHitsMoon exampleScene) !! 2%nat = Some b
    /\ 0 <= Vector3.y (translation b) < 10
    /\ Vector3.x (angvel b) = 0 /\ Vector3.z (angvel b) = 0
    /\ -0.1 <= Vector3.y (angvel b) < 0.1
    /\ isSleeping b = false.
Proof.
  exact (respawn_height_and_spin base36 planetHitsMoon exampleScene
           _ _ _ _ _ _ _ zeroDraws_unit planetHitsMoon_resolves).
Defined.

(** ** The two resolvers side by side *)

(** X7: on every resolved collision the resolver of [SolarSystemCore] and
    the one of [components/Planets.jsx] request the same explosions, leave
    the same trails, and leave every body with the same position, linear
    velocity, mass and stored type; the stand-alone one returns normally. *)
Theorem resolvers_agree (toString36 numberToString : R -> string)
    (ev : CollisionEvent) (s : Scene)
    (t : nat) (targetBody : RigidBody) (targetData : UserData)
    (o : nat) (otherBody : RigidBody) (otherData : UserData)
    (contact : Vector3.t) :
  resolves ev s t targetBody targetData o otherBody otherData contact ->
  exists s',
    PlanetsJsx.handleCollision numberToString ev s = PlanetsJsx.Returned s'
    /\ explosions s' = explosions (handleCollision toString36 ev s)
    /\ trails s' = trails (handleCollision toString36 ev s)
    /\ forall j : nat,
         translation <$> store s' !! j
         = translation <$> store (handleCollision toString36 ev s) !! j
         /\ linvel <$> store s' !! j
            = linvel <$> store (handleCollision toString36 ev s) !! j
         /\ mass <$> store s' !! j
            = mass <$> store (handleCollision toString36 ev s) !! j
         /\ storedType <$> store s' !! j
            = storedType <$> store (handleCollision toString36 ev s) !! j.
Proof.
  intros Hr. eexists. split.
  - apply (PlanetsJsx_handleCollision_resolved numberToString
             _ _ _ _ _ _ _ _ _ Hr).
  - rewrite (handleCollision_resolved toString36 _ _ _ _ _ _ _ _ _ Hr).
    simpl. split; [reflexivity | split; [reflexivity | ]].
    intros j.
    destruct (decide (t = j)) as [-> | Hne].
    + rewrite !list_lookup_alter_eq.
      destruct (includes validDynamicTypes (type otherData)).
      * destruct (decide (o = j)) as [-> | Hoj].
        -- rewrite !list_lookup_alter_eq.
           destruct (store s !! j) as [b | ]; simpl; [ | repeat split].
           unfold storedType; simpl. destruct (userData b); repeat split.
        -- rewrite !list_lookup_alter_ne by exact Hoj.
           destruct (store s !! j) as [b | ]; simpl; [ | repeat split].
           unfold storedType; simpl. destruct (userData b); repeat split.
      * destruct (store s !! j) as [b | ]; simpl; [ | repeat split].
        unfold storedType; simpl. destruct (userData b); repeat split.
    + rewrite !(list_lookup_alter_ne _ _ t j) by exact Hne.
      destruct (includes validDynamicTypes (type otherData));
        [ | repeat split].
      destruct (decide (o = j)) as [-> | Hoj].
      * rewrite !list_lookup_alter_eq.
        destruct (store s !! j) as [b | ]; simpl; repeat split.
      * rewrite !list_lookup_alter_ne by exact Hoj. repeat split.
Qed.

Lemma resolvers_agree_witness :
  exists s',
    PlanetsJsx.handleCollision decimal planetHitsMoon exampleScene
    = PlanetsJsx.Returned s'
    /\ explosions s'
       = explosions (handleCollision base36 planetHitsMoon exampleScene)
    /\ trails s' = trails (handleCollision base36 planetHitsMoon exampleScene)
    /\ forall j : nat,
         translation <$> store s' !! j
         = translation
           <$> store (handleCollision base36 planetHitsMoon exampleScene) !! j
         /\ linvel <$> store s' !! j
            = linvel
              <$> store (handleCollision base36 planetHitsMoon exampleScene)
                  !! j
         /\ mass <$> store s' !! j
            = mass
              <$> store (handleCollision base36 planetHitsMoon exampleScene)
                  !! j
         /\ storedType <$> store s' !! j
            = storedType
              <$> store (handleCollision base36 planetHitsMoon exampleScene)
                  !! j.
Proof.
  exact (resolvers_agree base36 decimal _ _ _ _ _ _ _ _ _
           planetHitsMoon_resolves).
Defined.

(** X8: when the other body is the heavier one but the manifold is missing
    or holds no contact point, the resolver of [components/Planets.jsx]
    stops on a [TypeError] before any write, where the one of
    [SolarSystemCore] returns; both leave the scene as it was. *)
Theorem missing_contact_point (toString36 numberToString : R -> string)
    (ev : CollisionEvent) (s : Scene)
    (t o : nat) (targetBody otherBody : RigidBody) :
  rigidBodyOf s (target ev) = Some (t, targetBody) ->
  rigidBodyOf s (other ev) = Some (o, otherBody) ->
  mass otherBody > mass targetBody ->
  manifold ev = None
  \/ (exists m, manifold ev = Some m /\ solverContactPoint m 0 = None) ->
  PlanetsJsx.handleCollision numberToString ev s = PlanetsJsx.Threw s
  /\ handleCollision toString36 ev s = s.
Proof.
  intros Ht Ho Hgt Hm. split.
  - unfold PlanetsJsx.handleCollision.
    destruct (target ev) as [tc | ]; [ | discriminate Ht].
    destruct (other ev) as [oc | ]; [ | discriminate Ho].
    rewrite Ht, Ho, (bool_decide_eq_true_2 _ Hgt).
    destruct Hm as [Hm | (m & Hm & Hc)]; rewrite Hm; [reflexivity | ].
    rewrite Hc. reflexivity.
  - destruct (handleCollision_cases toString36 ev s)
      as [Heq | (t' & tb & td & o' & ob & od & cp & Hr)]; [exact Heq | ].
    destruct Hr as (((m' & Hm' & Hc') & _) & _).
    destruct Hm as [Hm | (m & Hm & Hc)]; rewrite Hm in Hm'.
    + discriminate Hm'.
    + injection Hm' as <-. rewrite Hc in Hc'. discriminate Hc'.
Qed.

Lemma missing_contact_point_witness :
  PlanetsJsx.handleCollision decimal planetGrazesMoon exampleScene
  = PlanetsJsx.Threw exampleScene
  /\ handleCollision base36 planetGrazesMoon exampleScene = exampleScene.
Proof.
  apply (missing_contact_point base36 decimal planetGrazesMoon exampleScene
           2 1 planetBody moonBody eq_refl eq_refl).
  - simpl. lra.
  - right. exists []. split; reflexivity.
Defined.

(** ** The spawn generator *)

(** X9: with draws in [0, 1), a spawn position lies at a height in
    [0, 10) and, from the vertical axis, at exactly [SPAWN_RADIUS * 1.5] for
    an entry and within [SUN_RADIUS * 3, SUN_RADIUS * 3 + SPAWN_RADIUS)
    otherwise; it is therefore always further than [SUN_RADIUS * 3] from
    the centre of the sun.  An entry consumes two draws, any other spawn
    three. *)
Theorem calculateInitialPosition_bounds (isEntry : bool) (g : Random) :
  unitDraws g ->
  0 <= Vector3.y (fst (calculateInitialPosition isEntry g)) < 10
  /\ (if isEntry
      then Vector3.horizontalRadius (fst (calculateInitialPosition isEntry g))
           = SPAWN_RADIUS * 1.5
      else inSpawnBand (fst (calculateInitialPosition isEntry g)))
  /\ SUN_RADIUS * 3 <= Vector3.length (fst (calculateInitialPosition isEntry g))
  /\ cursor (snd (calculateInitialPosition isEntry g))
     = ((if isEntry then 2 else 3) + cursor g)%nat.
Proof.
  intros Hu.
  pose proof (Hu (S (cursor g))) as H1.
  pose proof (Hu (S (S (cursor g)))) as H2.
  destruct isEntry; simpl.
  - assert (Hh : Vector3.horizontalRadius
                   (Vector3.new
                      (cos (draws g (cursor g) * PI * 2) * (SPAWN_RADIUS * 1.5))
                      (draws g (S (cursor g)) * 10)
                      (sin (draws g (cursor g) * PI * 2) * (SPAWN_RADIUS * 1.5)))
                 = SPAWN_RADIUS * 1.5)
      by (apply horizontalRadius_circle; unfold SPAWN_RADIUS; lra).
    split; [lra | split; [exact Hh | split; [ | reflexivity]]].
    eapply Rle_trans; [ | apply length_ge_horizontalRadius].
    rewrite Hh. unfold SPAWN_RADIUS, SUN_RADIUS. lra.
  - assert (Hh : Vector3.horizontalRadius
                   (Vector3.new
                      (cos (draws g (cursor g) * PI * 2)
                       * (draws g (S (cursor g)) * SPAWN_RADIUS
                          + SUN_RADIUS * 3))
                      (draws g (S (S (cursor g))) * 10)
                      (sin (draws g (cursor g) * PI * 2)
                       * (draws g (S (cursor g)) * SPAWN_RADIUS
                          + SUN_RADIUS * 3)))
                 = draws g (S (cursor g)) * SPAWN_RADIUS + SUN_RADIUS * 3)
      by (apply horizontalRadius_circle; unfold SPAWN_RADIUS, SUN_RADIUS; lra).
    split; [lra | split; [ | split; [ | reflexivity]]].
    + unfold inSpawnBand. rewrite Hh. unfold SPAWN_RADIUS, SUN_RADIUS. lra.
    + eapply Rle_trans; [ | apply length_ge_horizontalRadius].
      rewrite Hh. unfold SPAWN_RADIUS, SUN_RADIUS. lra.
Qed.

Lemma calculateInitialPosition_bounds_witness :
  0 <= Vector3.y (fst (calculateInitialPosition false zeroDraws)) < 10
  /\ inSpawnBand (fst (calculateInitialPosition false zeroDraws))
  /\ SUN_RADIUS * 3
     <= Vector3.length (fst (calculateInitialPosition false zeroDraws))
  /\ cursor (snd (calculateInitialPosition false zeroDraws))
     = (3 + cursor zeroDraws)%nat.
Proof.
  exact (calculateInitialPosition_bounds false zeroDraws zeroDraws_unit).
Defined.

Lemma createBodyData_fields (toString36 : R -> string) (options : Options)
    (g : Random) :
  let d := fst (createBodyData toString36 options g) in
  let isRespawn := default false (respawn options) in
  bd_key d
  = ("instance_" ++ substring 2 9 (toString36 (draws g (cursor g))))%string
  /\ bd_position d
     = fst (calculateInitialPosition isRespawn
              (mkRandom (draws g) (S (cursor g))))
  /\ bd_linearVelocity d = calculateInitialVelocity (bd_position d) isRespawn
  /\ bd_userData d
     = mkUserData (default Planet (typeOverride options)) (Some (bd_key d)).
Proof.
  destruct options as [[[ | ] | ] ty [sc | ]]; repeat split.
Qed.

Lemma createBodyData_scale (toString36 : R -> string) (options : Options)
    (g : Random) :
  bd_scale (fst (createBodyData toString36 options g))
  = match scaleOverride options with
    | Some sc => sc
    | None =>
      0.5 + draws g ((if default false (respawn options) then 3 else 4)
                     + cursor g)%nat * 1.5
    end.
Proof.
  destruct options as [[[ | ] | ] ty [sc | ]]; reflexivity.
Qed.

(** X10: with draws in [0, 1), every body that [createBodyData] makes,
    whatever its options, is on an orbit: it is placed off the vertical
    axis, its velocity is perpendicular to its position and its speed is
    [sqrt(G * M_sun / r) * 20000], times 0.75 for a respawn. *)
Theorem createBodyData_on_orbit (toString36 : R -> string)
    (options : Options) (g : Random) :
  unitDraws g ->
  let d := fst (createBodyData toString36 options g) in
  SUN_RADIUS * 3 <= Vector3.horizontalRadius (bd_position d)
  /\ Vector3.dot (bd_linearVelocity d) (bd_position d) = 0
  /\ Vector3.length (bd_linearVelocity d)
     = spawnSpeed (bd_position d) (default false (respawn options)).
Proof.
  intros Hu d.
  destruct (createBodyData_fields toString36 options g)
    as (_ & Hp & Hv & _).
  fold d in Hp, Hv.
  assert (Hu' : unitDraws (mkRandom (draws g) (S (cursor g))))
    by (intros n; apply Hu).
  pose proof (calculateInitialPosition_bounds
                (default false (respawn options)) _ Hu') as (_ & Hband & _).
  rewrite <- Hp in Hband.
  assert (Hh : SUN_RADIUS * 3 <= Vector3.horizontalRadius (bd_position d)).
  { destruct (default false (respawn options)).
    - rewrite Hband. unfold SUN_RADIUS, SPAWN_RADIUS. lra.
    - apply Hband. }
  split; [exact Hh | ]. rewrite Hv. split.
  - apply velocity_dot_position.
  - apply velocity_length.
    destruct (Req_dec (Vector3.x (bd_position d)) 0) as [Hx | Hx];
      [ | left; exact Hx].
    right. intros Hz. unfold Vector3.horizontalRadius in Hh.
    rewrite Hx, Hz in Hh.
    replace (0 * 0 + 0 * 0) with 0 in Hh by ring.
    rewrite sqrt_0 in Hh. unfold SUN_RADIUS in Hh. lra.
Qed.

Lemma createBodyData_on_orbit_witness :
  let d := fst (createBodyData base36 (mkOptions None (Some Earth) (Some 2.5))
                               zeroDraws) in
  SUN_RADIUS * 3 <= Vector3.horizontalRadius (bd_position d)
  /\ Vector3.dot (bd_linearVelocity d) (bd_position d) = 0
  /\ Vector3.length (bd_linearVelocity d) = spawnSpeed (bd_position d) false.
Proof.
  exact (createBodyData_on_orbit base36 (mkOptions None (Some Earth) (Some 2.5))
           zeroDraws zeroDraws_unit).
Defined.

Lemma length_substring_le (n m : nat) (str : string) :
  (String.length (substring n m str) <= m)%nat.
Proof.
  revert n m. induction str as [ | c str IH]; intros n m.
  - destruct n, m; simpl; lia.
  - destruct n as [ | n].
    + destruct m as [ | m]; simpl; [lia | ].
      specialize (IH 0%nat m). lia.
    + simpl. apply IH.
Qed.

(** X11: the body data made by [createBodyData] carry one key, the same in
    [key] and in [userData.key], made of "instance_" and at most nine more
    characters; the type is the override, or Planet without one; the scale
    is the override, or lies in [0.5, 2) without one. *)
Theorem createBodyData_identity (toString36 : R -> string)
    (options : Options) (g : Random) :
  unitDraws g ->
  let d := fst (createBodyData toString36 options g) in
  key (bd_userData d) = Some (bd_key d)
  /\ (exists suffix,
        bd_key d = ("instance_" ++ suffix)%string
        /\ (String.length suffix <= 9)%nat)
  /\ type (bd_userData d) = default Planet (typeOverride options)
  /\ match scaleOverride options with
     | Some sc => bd_scale d = sc
     | None => 0.5 <= bd_scale d < 2
     end.
Proof.
  intros Hu d.
  destruct (createBodyData_fields toString36 options g)
    as (Hk & _ & _ & Hud).
  fold d in Hk, Hud. rewrite Hud. simpl.
  split; [reflexivity | split; [ | split; [reflexivity | ]]].
  - eexists. split; [exact Hk | apply length_substring_le].
  - unfold d. rewrite createBodyData_scale.
    destruct (scaleOverride options); [reflexivity | ].
    pose proof (Hu ((if default false (respawn options) then 3 else 4)
                    + cursor g)%nat).
    lra.
Qed.

Lemma createBodyData_identity_witness :
  let d := fst (createBodyData base36 (mkOptions None None None) zeroDraws) in
  key (bd_userData d) = Some (bd_key d)
  /\ (exists suffix,
        bd_key d = ("instance_" ++ suffix)%string
        /\ (String.length suffix <= 9)%nat)
  /\ type (bd_userData d) = Planet
  /\ 0.5 <= bd_scale d < 2.
Proof.
  exact (createBodyData_identity base36 (mkOptions None None None)
           zeroDraws zeroDraws_unit).
Defined.

(** ** The bodies created at start-up *)

Lemma createBodyData_type (toString36 : R -> string) (options : Options)
    (g : Random) :
  type (bd_userData (fst (createBodyData toString36 options g)))
  = default Planet (typeOverride options).
Proof.
  destruct (createBodyData_fields toString36 options g) as (_ & _ & _ & Hud).
  rewrite Hud. reflexivity.
Qed.

Lemma pushPlanets_types (toString36 : R -> string) (rounds : nat)
    (bodies : list BodyData) (g : Random) :
  map (fun d => type (bd_userData d))
      (fst (pushPlanets toString36 rounds bodies g))
  = map (fun d => type (bd_userData d)) bodies ++ replicate rounds Planet.
Proof.
  revert bodies g. induction rounds as [ | rounds IH]; intros bodies g.
  - simpl. rewrite app_nil_r. reflexivity.
  - change (pushPlanets toString36 (S rounds) bodies g)
      with (let '(b, g') :=
              createBodyData toString36 (mkOptions None (Some Planet) None) g
            in pushPlanets toString36 rounds (bodies ++ [b]) g').
    pose proof (createBodyData_type toString36
                  (mkOptions None (Some Planet) None) g) as Hty.
    destruct (createBodyData toString36 (mkOptions None (Some Planet) None) g)
      as [b g'].
    rewrite IH, map_app. simpl in Hty. simpl. rewrite Hty.
    rewrite <- app_assoc. reflexivity.
Qed.

Lemma pushPlanets_prefix (toString36 : R -> string) (rounds : nat)
    (bodies : list BodyData) (g : Random) :
  bodies `prefix_of` fst (pushPlanets toString36 rounds bodies g).
Proof.
  revert bodies g. induction rounds as [ | rounds IH]; intros bodies g;
    [reflexivity | ].
  change (pushPlanets toString36 (S rounds) bodies g)
    with (let '(b, g') :=
            createBodyData toString36 (mkOptions None (Some Planet) None) g
          in pushPlanets toString36 rounds (bodies ++ [b]) g').
  destruct (createBodyData toString36 (mkOptions None (Some Planet) None) g)
    as [b g'].
  etrans; [ | apply IH]. apply prefix_app_r. reflexivity.
Qed.

(** X12: [initialInstances] makes exactly [count] bodies (none for a count
    of zero or less): a Moon of scale 5 first, an Earth of scale 2.5 second
    when the count exceeds one, and generic planets after them. *)
Theorem initialInstances_roster (toString36 : R -> string) (count : Z)
    (g : Random) :
  let bodies := fst (initialInstances toString36 count g) in
  List.length bodies = Z.to_nat count
  /\ map (fun d => type (bd_userData d)) bodies
     = take (Z.to_nat count) (Moon :: Earth :: replicate (Z.to_nat count) Planet)
  /\ bd_scale <$> bodies !! 0%nat
     = (if (0 <? count)%Z then Some 5 else None)
  /\ bd_scale <$> bodies !! 1%nat
     = (if (1 <? count)%Z then Some 2.5 else None).
Proof.
  intros bodies.
  assert (Hlen : forall l : list BodyData,
             List.length l
             = List.length (map (fun d => type (bd_userData d)) l))
    by (intros l; rewrite length_map; reflexivity).
  assert (Htypes : map (fun d => type (bd_userData d)) bodies
                   = take (Z.to_nat count)
                       (Moon :: Earth :: replicate (Z.to_nat count) Planet)
                   /\ bd_scale <$> bodies !! 0%nat
                      = (if (0 <? count)%Z then Some 5 else None)
                   /\ bd_scale <$> bodies !! 1%nat
                      = (if (1 <? count)%Z then Some 2.5 else None)).
  { unfold bodies, initialInstances.
    destruct (0 <? count)%Z eqn:H0.
    - apply Z.ltb_lt in H0.
      change ((moon ← createBodyData toString36
                        (mkOptions None (Some Moon) (Some 5));
               bodies1 ← (if (1 <? count)%Z
                          then
                            earth ← createBodyData toString36
                                      (mkOptions None (Some Earth) (Some 2.5));
                            mret ([moon] ++ [earth])
                          else mret [moon]);
               pushPlanets toString36
                 (Z.to_nat (Z.max 0 (count - Z.of_nat (List.length bodies1))))
                 bodies1) g)
        with (let '(moon, g1) :=
                createBodyData toString36
                  (mkOptions None (Some Moon) (Some 5)) g in
              let '(bodies1, g2) :=
                (if (1 <? count)%Z
                 then
                   earth ← createBodyData toString36
                             (mkOptions None (Some Earth) (Some 2.5));
                   mret ([moon] ++ [earth])
                 else mret [moon]) g1 in
              pushPlanets toString36
                (Z.to_nat (Z.max 0 (count - Z.of_nat (List.length bodies1))))
                bodies1 g2).
      pose proof (createBodyData_type toString36
                    (mkOptions None (Some Moon) (Some 5)) g) as Hmoon.
      pose proof (createBodyData_scale toString36
                    (mkOptions None (Some Moon) (Some 5)) g) as Hmscale.
      destruct (createBodyData toString36
                  (mkOptions None (Some Moon) (Some 5)) g) as [moon g1].
      simpl in Hmoon, Hmscale.
      destruct (1 <? count)%Z eqn:H1.
      + apply Z.ltb_lt in H1.
        change ((earth ← createBodyData toString36
                           (mkOptions None (Some Earth) (Some 2.5));
                 mret ([moon] ++ [earth])) g1)
          with (let '(earth, g2) :=
                  createBodyData toString36
                    (mkOptions None (Some Earth) (Some 2.5)) g1 in
                ([moon] ++ [earth], g2)).
        pose proof (createBodyData_type toString36
                      (mkOptions None (Some Earth) (Some 2.5)) g1) as Hearth.
        pose proof (createBodyData_scale toString36
                      (mkOptions None (Some Earth) (Some 2.5)) g1) as Hescale.
        destruct (createBodyData toString36
                    (mkOptions None (Some Earth) (Some 2.5)) g1)
          as [earth g2].
        simpl in Hearth, Hescale.
        pose proof (pushPlanets_types toString36
                      (Z.to_nat (Z.max 0 (count - 2))) [moon; earth] g2)
          as Hpush.
        simpl app. simpl List.length.
        change (Z.of_nat 2) with 2%Z.
        split; [ | split].
        * rewrite Hpush. simpl map. rewrite Hmoon, Hearth.
          assert (Hc : Z.to_nat count
                       = S (S (Z.to_nat (Z.max 0 (count - 2))))) by lia.
          generalize (Z.to_nat (Z.max 0 (count - 2))) Hc.
          generalize (Z.to_nat count). intros m n Hmn.
          rewrite Hmn at 1.
          change (take (S (S n)) (Moon :: Earth :: replicate m Planet))
            with (Moon :: Earth :: take n (replicate m Planet)).
          rewrite take_replicate, Nat.min_l by lia. reflexivity.
        * destruct (pushPlanets_prefix toString36
                      (Z.to_nat (Z.max 0 (count - 2))) [moon; earth] g2)
            as [rest Hrest].
          rewrite Hrest. simpl.
          rewrite Hmscale. reflexivity.
        * destruct (pushPlanets_prefix toString36
                      (Z.to_nat (Z.max 0 (count - 2))) [moon; earth] g2)
            as [rest Hrest].
          rewrite Hrest. simpl.
          rewrite Hescale. reflexivity.
      + apply Z.ltb_ge in H1.
        assert (count = 1%Z) by lia. subst count.
        simpl. rewrite Hmoon, Hmscale. repeat split.
    - apply Z.ltb_ge in H0.
      assert (H1 : (1 <? count)%Z = false) by (apply Z.ltb_ge; lia).
      rewrite H1.
      replace (Z.to_nat count) with 0%nat by lia. repeat split. }
  split; [ | exact Htypes].
  rewrite Hlen. destruct Htypes as (Hty & _). rewrite Hty.
  rewrite length_take. simpl. rewrite length_replicate. lia.
Qed.

(** X13: for a position off the vertical axis the velocity returned by
    [calculateInitialVelocity] has no vertical component, is not zero, and
    turns about the vertical axis in one fixed sense: the vertical
    component of position x velocity is negative, for every body alike. *)
Theorem calculateInitialVelocity_sense (p : Vector3.t) (isRespawn : bool) :
  Vector3.x p <> 0 \/ Vector3.z p <> 0 ->
  Vector3.y (calculateInitialVelocity p isRespawn) = 0
  /\ 0 < Vector3.length (calculateInitialVelocity p isRespawn)
  /\ Vector3.y (Vector3.crossVectors p (calculateInitialVelocity p isRespawn))
     < 0.
Proof.
  intros Hxz.
  pose proof (velocity_length p isRespawn Hxz) as Hlen.
  pose proof (spawnSpeed_pos p isRespawn Hxz) as Hpos.
  pose proof (horizontalRadius_nonzero p Hxz) as Hh.
  assert (Hh0 : 0 <= Vector3.horizontalRadius p) by apply sqrt_pos.
  assert (Hsq : Vector3.horizontalRadius p * Vector3.horizontalRadius p
                = Vector3.x p * Vector3.x p + Vector3.z p * Vector3.z p).
  { unfold Vector3.horizontalRadius. apply sqrt_sqrt. nra. }
  set (speed := sqrt (GRAVITATIONAL_CONSTANT * SUN_MASS / Vector3.length p)).
  assert (Hspeed : 0 < speed).
  { unfold spawnSpeed in Hpos. fold speed in Hpos.
    assert (0 <= speed) by apply sqrt_pos.
    unfold respawnFactor in Hpos. destruct isRespawn; nra. }
  set (k := 1 / Vector3.horizontalRadius p * speed * 20000
            * respawnFactor isRespawn).
  assert (Hk : 0 < k).
  { unfold k. assert (0 < 1 / Vector3.horizontalRadius p)
      by (apply Rdiv_lt_0_compat; lra).
    unfold respawnFactor. destruct isRespawn; nra. }
  assert (Hv : calculateInitialVelocity p isRespawn
               = Vector3.new (- Vector3.z p * k) 0 (Vector3.x p * k)).
  { unfold calculateInitialVelocity. rewrite cross_up, (copy_id p).
    fold speed. unfold Vector3.normalize, Vector3.divideScalar.
    rewrite length_cross_up. unfold num_or.
    rewrite bool_decide_eq_false_2 by exact Hh.
    unfold k, respawnFactor.
    destruct isRespawn; apply vector_eq; simpl; ring. }
  split; [rewrite Hv; reflexivity | split].
  - rewrite Hlen. exact Hpos.
  - rewrite Hv. simpl.
    assert (Hxz2 : 0 < Vector3.x p * Vector3.x p + Vector3.z p * Vector3.z p)
      by (rewrite <- Hsq; nra).
    pose proof (Rmult_lt_0_compat _ _ Hk Hxz2) as Hprod.
    replace (Vector3.z p * (- Vector3.z p * k)
             - Vector3.x p * (Vector3.x p * k))
      with (- (k * (Vector3.x p * Vector3.x p + Vector3.z p * Vector3.z p)))
      by ring.
    lra.
Qed.

Lemma calculateInitialVelocity_sense_witness :
  Vector3.y (calculateInitialVelocity (Vector3.new 3 4 0) true) = 0
  /\ 0 < Vector3.length (calculateInitialVelocity (Vector3.new 3 4 0) true)
  /\ Vector3.y (Vector3.crossVectors (Vector3.new 3 4 0)
                  (calculateInitialVelocity (Vector3.new 3 4 0) true))
     < 0.
Proof.
  apply (calculateInitialVelocity_sense (Vector3.new 3 4 0) true).
  left. simpl. lra.
Defined.

(** ** The spin given to the instances *)

Lemma spinPlanet_unfold (s : Scene) (h : nat) :
  spinPlanet s h
  = mkScene
      (alter (setAngvel
                (Vector3.multiplyScalar
                   (Vector3.new 0 (draws (random s) (cursor (random s)) - 0.5) 0)
                   0.5) true)
             h (store s))
      (explosions s) (trails s)
      (mkRandom (draws (random s)) (S (cursor (random s)))).
Proof. reflexivity. Qed.

Lemma foldl_spinPlanet (planets : list nat) (s : Scene) :
  unitDraws (random s) ->
  explosions (foldl spinPlanet s planets) = explosions s
  /\ trails (foldl spinPlanet s planets) = trails s
  /\ forall (j : nat) (b : RigidBody),
       store s !! j = Some b ->
       exists b',
         store (foldl spinPlanet s planets) !! j = Some b'
         /\ translation b' = translation b /\ linvel b' = linvel b
         /\ mass b' = mass b /\ userData b' = userData b
         /\ (j ∈ planets -> initialSpin (angvel b'))
         /\ (j ∉ planets -> b' = b).
Proof.
  revert s. induction planets as [ | h planets IH]; intros s Hu.
  - simpl. split; [reflexivity | split; [reflexivity | ]].
    intros j b Hb. exists b. split; [exact Hb | ].
    do 4 (split; [reflexivity | ]).
    split; [ | intros _; reflexivity].
    intros Hin. apply elem_of_nil in Hin. contradiction.
  - simpl foldl.
    assert (Hu1 : unitDraws (random (spinPlanet s h)))
      by (rewrite spinPlanet_unfold; intros n; apply Hu).
    destruct (IH (spinPlanet s h) Hu1) as (He & Ht & Hb1).
    split; [rewrite He; reflexivity | split; [rewrite Ht; reflexivity | ]].
    intros j b Hb.
    set (v := Vector3.multiplyScalar
                (Vector3.new 0 (draws (random s) (cursor (random s)) - 0.5) 0)
                0.5).
    assert (Hv : initialSpin v).
    { unfold initialSpin, v. simpl.
      pose proof (Hu (cursor (random s))). repeat split; lra. }
    destruct (decide (h = j)) as [-> | Hne].
    + assert (Hj1 : store (spinPlanet s j) !! j = Some (setAngvel v true b)).
      { rewrite spinPlanet_unfold. simpl.
        rewrite list_lookup_alter_eq, Hb. reflexivity. }
      destruct (Hb1 j _ Hj1) as (b' & Hb' & Htr & Hlv & Hm & Hud & Hin & Hout).
      exists b'. split; [exact Hb' | ].
      split; [rewrite Htr; reflexivity | ].
      split; [rewrite Hlv; reflexivity | ].
      split; [rewrite Hm; reflexivity | ].
      split; [rewrite Hud; reflexivity | ].
      split.
      * intros _. destruct (decide (j ∈ planets)) as [Hjin | Hjout].
        -- apply Hin, Hjin.
        -- rewrite (Hout Hjout). exact Hv.
      * intros Hnot. exfalso. apply Hnot. apply elem_of_cons. left. reflexivity.
    + assert (Hj1 : store (spinPlanet s h) !! j = Some b).
      { rewrite spinPlanet_unfold. simpl.
        rewrite list_lookup_alter_ne by exact Hne. exact Hb. }
      destruct (Hb1 j _ Hj1) as (b' & Hb' & Htr & Hlv & Hm & Hud & Hin & Hout).
      exists b'. split; [exact Hb' | ].
      do 4 (split; [assumption | ]).
      split.
      * intros Hjin. apply Hin. apply elem_of_cons in Hjin.
        destruct Hjin as [-> | Hjin]; [contradiction | exact Hjin].
      * intros Hnot. apply Hout. intros Hjin. apply Hnot.
        apply elem_of_cons. right. exact Hjin.
Qed.

(** X14: the spin effect records the number of instances and gives every
    instance, with draws in [0, 1), a spin about the vertical axis at a
    rate in [-0.25, 0.25); it moves no body, changes no linear velocity,
    mass or [userData], and leaves every other body as it was.  Without
    instances it does nothing. *)
Theorem spinEffect_spins (planets : list nat) (planetCount : nat) (s : Scene) :
  unitDraws (random s) ->
  spinEffect None planetCount s = (planetCount, s)
  /\ fst (spinEffect (Some planets) planetCount s) = List.length planets
  /\ forall (j : nat) (b : RigidBody),
       store s !! j = Some b ->
       exists b',
         store (snd (spinEffect (Some planets) planetCount s)) !! j = Some b'
         /\ translation b' = translation b /\ linvel b' = linvel b
         /\ mass b' = mass b /\ userData b' = userData b
         /\ (j ∈ planets -> initialSpin (angvel b'))
         /\ (j ∉ planets -> b' = b).
Proof.
  intros Hu. split; [reflexivity | split; [reflexivity | ]].
  simpl. apply (foldl_spinPlanet planets s Hu).
Qed.

Lemma spinEffect_spins_witness :
  spinEffect None 14 exampleScene = (14%nat, exampleScene)
  /\ fst (spinEffect (Some [1%nat; 2%nat]) 14 exampleScene) = 2%nat
  /\ forall (j : nat) (b : RigidBody),
       store exampleScene !! j = Some b ->
       exists b',
         store (snd (spinEffect (Some [1%nat; 2%nat]) 14 exampleScene)) !! j
         = Some b'
         /\ translation b' = translation b /\ linvel b' = linvel b
         /\ mass b' = mass b /\ userData b' = userData b
         /\ (j ∈ [1%nat; 2%nat] -> initialSpin (angvel b'))
         /\ (j ∉ [1%nat; 2%nat] -> b' = b).
Proof.
  exact (spinEffect_spins [1%nat; 2%nat] 14 exampleScene zeroDraws_unit).
Defined.

(** ** The gravity hook, pair by pair *)

Lemma distanceToSquared_sym (a b : Vector3.t) :
  Vector3.distanceToSquared a b = Vector3.distanceToSquared b a.
Proof. unfold Vector3.distanceToSquared. ring. Qed.

Lemma distanceTo_sym (a b : Vector3.t) :
  Vector3.distanceTo a b = Vector3.distanceTo b a.
Proof. unfold Vector3.distanceTo. rewrite distanceToSquared_sym. reflexivity. Qed.

Lemma length_subVectors (a b : Vector3.t) :
  Vector3.length (Vector3.subVectors b a) = Vector3.distanceTo a b.
Proof.
  unfold Vector3.length, Vector3.distanceTo, Vector3.distanceToSquared.
  simpl. f_equal. ring.
Qed.

Lemma distanceTo_zero (a b : Vector3.t) : Vector3.distanceTo a b = 0 -> a = b.
Proof.
  unfold Vector3.distanceTo, Vector3.distanceToSquared. cbv zeta. intros H.
  pose proof (Rle_0_sqr (Vector3.x a - Vector3.x b)) as Hx.
  pose proof (Rle_0_sqr (Vector3.y a - Vector3.y b)) as Hy.
  pose proof (Rle_0_sqr (Vector3.z a - Vector3.z b)) as Hz.
  unfold Rsqr in Hx, Hy, Hz.
  apply sqrt_eq_0 in H; [ | lra].
  apply vector_eq; nra.
Qed.

(** X15: for another body that is awake, dynamic, with a non-zero mass and
    at a different position, the inner callback applies to the current body,
    and to no other, the impulse [F * normalize(d)] with
    [F = G * m * m' / (r * s)^2]; for positive masses its magnitude is [F]
    and it points along the displacement towards the other body. *)
Theorem innerCallback_applies_gravity
    (applyImpulse : Vector3.t -> bool -> RigidBody -> RigidBody)
    (w : list RigidBody) (ci oi : nat) (currentMass : R)
    (currentPosition : Vector3.t) (otherBody : RigidBody) :
  w !! oi = Some otherBody -> ci <> oi ->
  isSleeping otherBody = false -> isDynamic otherBody = true ->
  mass otherBody <> 0 -> translation otherBody <> currentPosition ->
  let impulse :=
    gravityImpulse currentMass currentPosition
                   (mass otherBody) (translation otherBody) in
  let r := Vector3.distanceTo currentPosition (translation otherBody) in
  let F := GRAVITATIONAL_CONSTANT * currentMass * mass otherBody
           / (r * SCALE_FACTOR) ^ 2 in
  innerCallback applyImpulse ci currentMass currentPosition w oi
  = Ok (alter (applyImpulse impulse true) ci w)
  /\ impulse
     = Vector3.multiplyScalar
         (Vector3.subVectors (translation otherBody) currentPosition) (F / r)
  /\ (0 < currentMass -> 0 < mass otherBody ->
      0 < F /\ Vector3.length impulse = F).
Proof.
  intros Hl Hne Hsl Hdyn Hm Hpos impulse r F.
  assert (Hr : r <> 0).
  { intros H. apply Hpos. symmetry. apply distanceTo_zero. exact H. }
  assert (Hr0 : 0 < r).
  { assert (0 <= r) by apply sqrt_pos. lra. }
  assert (Hcopy : Vector3.new (Vector3.x (translation otherBody))
                              (Vector3.y (translation otherBody))
                              (Vector3.z (translation otherBody))
                  = translation otherBody)
    by (destruct (translation otherBody); reflexivity).
  split; [ | split].
  - unfold innerCallback. rewrite Hl, Hsl, Hdyn.
    rewrite (bool_decide_eq_false_2 _ Hne).
    rewrite (bool_decide_eq_false_2 _ Hm). simpl orb. cbv iota.
    rewrite Hcopy. fold r.
    rewrite (bool_decide_eq_false_2 _ Hr).
    unfold chk_div.
    rewrite (bool_decide_eq_false_2 _ (Math_pow_scaled_nonzero _ Hr)).
    simpl. rewrite normalize_chk_ok. reflexivity.
  - unfold impulse, gravityImpulse, Vector3.normalize, Vector3.divideScalar.
    rewrite length_subVectors. fold r. unfold num_or.
    rewrite (bool_decide_eq_false_2 _ Hr).
    unfold F, Math_pow. apply vector_eq; simpl; field;
      (split; [unfold SCALE_FACTOR; lra | exact Hr]).
  - intros Hcm Hom.
    assert (HF : 0 < F).
    { unfold F. apply Rdiv_lt_0_compat.
      - apply Rmult_lt_0_compat; [ | exact Hom].
        apply Rmult_lt_0_compat; [ | exact Hcm].
        apply GRAVITATIONAL_CONSTANT_pos.
      - apply pow_lt. unfold SCALE_FACTOR. lra. }
    split; [exact HF | ].
    unfold impulse, gravityImpulse. fold r.
    change (Math_pow (r * SCALE_FACTOR) 2) with ((r * SCALE_FACTOR) ^ 2).
    fold F.
    rewrite length_multiplyScalar by lra.
    rewrite length_normalize; [ring | ].
    rewrite length_subVectors. exact Hr.
Qed.

Lemma innerCallback_applies_gravity_witness :
  let impulse :=
    gravityImpulse (mass planetBody) (translation planetBody)
                   (mass moonBody) (translation moonBody) in
  let r := Vector3.distanceTo (translation planetBody) (translation moonBody) in
  let F := GRAVITATIONAL_CONSTANT * mass planetBody * mass moonBody
           / (r * SCALE_FACTOR) ^ 2 in
  innerCallback impulseOnVelocity 2 (mass planetBody) (translation planetBody)
                [sunBody; moonBody; planetBody] 1
  = Ok (alter (impulseOnVelocity impulse true) 2%nat
              [sunBody; moonBody; planetBody])
  /\ impulse
     = Vector3.multiplyScalar
         (Vector3.subVectors (translation moonBody) (translation planetBody))
         (F / r)
  /\ (0 < mass planetBody -> 0 < mass moonBody ->
      0 < F /\ Vector3.length impulse = F).
Proof.
  apply (innerCallback_applies_gravity impulseOnVelocity
           [sunBody; moonBody; planetBody] 2 1 (mass planetBody)
           (translation planetBody) moonBody eq_refl).
  - lia.
  - reflexivity.
  - reflexivity.
  - simpl. lra.
  - simpl. intros H. apply (f_equal Vector3.x) in H. simpl in H. lra.
Defined.

(** X16: the impulse computed for a body from another is the opposite of
    the impulse computed for the other from it. *)
Theorem gravityImpulse_opposite (m1 m2 : R) (p1 p2 : Vector3.t) :
  gravityImpulse m2 p2 m1 p1
  = Vector3.multiplyScalar (gravityImpulse m1 p1 m2 p2) (-1).
Proof.
  unfold gravityImpulse, Vector3.normalize, Vector3.divideScalar.
  rewrite !length_subVectors, (distanceTo_sym p2 p1).
  set (r := Vector3.distanceTo p1 p2).
  set (k := 1 / num_or r 1).
  set (F1 := GRAVITATIONAL_CONSTANT * m1 * m2 / Math_pow (r * SCALE_FACTOR) 2).
  replace (GRAVITATIONAL_CONSTANT * m2 * m1 / Math_pow (r * SCALE_FACTOR) 2)
    with F1 by (unfold F1, Rdiv; ring).
  apply vector_eq; simpl; ring.
Qed.

(** X17: one run of the gravity hook changes nothing, whatever the world:
    the outer callback tests the method [isSleeping] itself, not its
    result, and returns for every body before it reaches the inner loop. *)
Theorem useGravity_changes_nothing
    (applyImpulse : Vector3.t -> bool -> RigidBody -> RigidBody)
    (world : option World) :
  useGravity applyImpulse world = Ok world.
Proof.
  unfold useGravity. destruct world as [[[w | ]] | ]; simpl; try reflexivity.
  rewrite gravityPass_noop. reflexivity.
Qed.

(** ** The trail store, call by call *)

Lemma default_lookup_last (m : gmap string (list Vector3.t)) (k : string)
    (p : Vector3.t) :
  last (default [] (m !! k)) = Some p ->
  m !! k = Some (default [] (m !! k)).
Proof. destruct (m !! k); simpl; [reflexivity | discriminate]. Qed.

(** X18: after [addTrailPoint] the key has a non-empty trail, and the last
    point of that trail is the position given or lies within a squared
    distance of 1 of it. *)
Theorem addTrailPoint_head (key : string) (position : Vector3.t)
    (prevTrails : gmap string (list Vector3.t)) :
  exists (trail : list Vector3.t) (head : Vector3.t),
    addTrailPoint key position prevTrails !! key = Some trail
    /\ last trail = Some head
    /\ Vector3.distanceToSquared head position <= 1.
Proof.
  rewrite addTrailPoint_unfold. unfold movedEnough.
  destruct (last (default [] (prevTrails !! key))) as [p | ] eqn:Hlast.
  - case_bool_decide as Hfar.
    + exists (dropOldest (default [] (prevTrails !! key)) ++ [position]),
             position.
      rewrite lookup_insert_eq, last_snoc.
      split; [reflexivity | split; [reflexivity | ]].
      unfold Vector3.distanceToSquared. nra.
    + exists (default [] (prevTrails !! key)), p.
      split; [apply (default_lookup_last _ _ p Hlast) | ].
      split; [exact Hlast | lra].
  - exists (dropOldest (default [] (prevTrails !! key)) ++ [position]),
           position.
    rewrite lookup_insert_eq, last_snoc.
    split; [reflexivity | split; [reflexivity | ]].
    unfold Vector3.distanceToSquared. nra.
Qed.

Lemma spaced_drop_1 (trail : list Vector3.t) :
  spaced trail -> spaced (drop 1 trail).
Proof.
  destruct trail as [ | p [ | q rest]]; simpl; try (intros; exact I).
  intros [_ H]. exact H.
Qed.

Lemma spaced_dropOldest (trail : list Vector3.t) :
  spaced trail -> spaced (dropOldest trail).
Proof.
  intros H. unfold dropOldest.
  destruct (300 <=? List.length trail)%nat; [apply spaced_drop_1 | ]; exact H.
Qed.

Lemma spaced_snoc (trail : list Vector3.t) (position : Vector3.t) :
  spaced trail -> movedEnough trail position = true ->
  spaced (trail ++ [position]).
Proof.
  unfold movedEnough.
  induction trail as [ | p rest IH]; intros Hs Hm; [exact I | ].
  destruct rest as [ | q rest'].
  - simpl in Hm. apply bool_decide_eq_true in Hm. simpl. split; [exact Hm | exact I].
  - destruct Hs as [Hpq Hrest].
    change (spaced (p :: (q :: rest') ++ [position])).
    change (Vector3.distanceToSquared p q > 1
            /\ spaced ((q :: rest') ++ [position])).
    split; [exact Hpq | ]. apply IH; [exact Hrest | exact Hm].
Qed.

Lemma addTrailPoint_spaced (key : string) (position : Vector3.t)
    (m : gmap string (list Vector3.t)) :
  trailsSpaced m -> trailsSpaced (addTrailPoint key position m).
Proof.
  intros Hm. rewrite addTrailPoint_unfold.
  destruct (movedEnough (default [] (m !! key)) position) eqn:Hmoved;
    [ | exact Hm].
  intros k trail Hk.
  destruct (decide (key = k)) as [-> | Hne].
  - rewrite lookup_insert_eq in Hk. injection Hk as <-.
    apply spaced_snoc.
    + apply spaced_dropOldest.
      destruct (m !! k) as [old | ] eqn:Hold; simpl; [ | exact I].
      exact (Hm k old Hold).
    + unfold movedEnough. rewrite last_dropOldest. exact Hmoved.
  - rewrite lookup_insert_ne in Hk by exact Hne. exact (Hm k trail Hk).
Qed.

Lemma clearTrail_spaced (key : string) (m : gmap string (list Vector3.t)) :
  trailsSpaced m -> trailsSpaced (clearTrail key m).
Proof.
  intros Hm k trail Hk. unfold clearTrail in Hk.
  destruct (decide (key = k)) as [-> | Hne].
  - rewrite lookup_delete_eq in Hk. discriminate.
  - rewrite lookup_delete_ne in Hk by exact Hne. exact (Hm k trail Hk).
Qed.

Lemma foldl_trailCalls_spaced (cs : list TrailCall)
    (m : gmap string (list Vector3.t)) :
  trailsSpaced m ->
  trailsSpaced (foldl (fun trails c => applyTrailCall c trails) m cs).
Proof.
  revert m. induction cs as [ | c cs IH]; intros m Hm; simpl.
  - exact Hm.
  - apply IH. destruct c as [k p | k]; simpl.
    + apply addTrailPoint_spaced, Hm.
    + apply clearTrail_spaced, Hm.
Qed.

(** X19: whatever calls were made on the trail context, any two
    consecutive points of a stored trail lie at a squared distance above 1
    from each other. *)
Theorem trail_points_spaced (cs : list TrailCall) (key : string)
    (i : nat) :
  match default [] (runTrailCalls cs !! key) !! i,
        default [] (runTrailCalls cs !! key) !! S i with
  | Some p, Some q => Vector3.distanceToSquared p q > 1
  | _, _ => True
  end.
Proof.
  assert (Hs : spaced (default [] (runTrailCalls cs !! key))).
  { destruct (runTrailCalls cs !! key) as [trail | ] eqn:Hk; simpl; [ | exact I].
    apply (foldl_trailCalls_spaced cs ∅) with (k := key); [ | exact Hk].
    intros k t Hkt. rewrite lookup_empty in Hkt. discriminate. }
  revert i Hs. generalize (default [] (runTrailCalls cs !! key)).
  induction l as [ | p rest IH]; intros i Hs; [exact I | ].
  destruct rest as [ | q rest'].
  - destruct i; simpl; exact I.
  - destruct Hs as [Hpq Hrest]. destruct i as [ | i].
    + simpl. exact Hpq.
    + apply (IH i Hrest).
Qed.

(** X20: calls made for one key never change the trail of another key;
    clearing a key that has no trail changes nothing; and the first point
    added after a clear starts a trail of that one point. *)
Theorem trail_keys_independent (key other : string) (position : Vector3.t)
    (prevTrails : gmap string (list Vector3.t)) :
  (key <> other ->
   addTrailPoint key position prevTrails !! other = prevTrails !! other
   /\ clearTrail key prevTrails !! other = prevTrails !! other)
  /\ (prevTrails !! key = None -> clearTrail key prevTrails = prevTrails)
  /\ addTrailPoint key position (clearTrail key prevTrails) !! key
     = Some [position].
Proof.
  split; [ | split].
  - intros Hne. split.
    + rewrite addTrailPoint_unfold.
      destruct (movedEnough _ _); [ | reflexivity].
      apply lookup_insert_ne. exact Hne.
    + apply lookup_delete_ne. exact Hne.
  - intros Hnone. apply delete_id. exact Hnone.
  - rewrite addTrailPoint_unfold. unfold clearTrail.
    rewrite lookup_delete_eq. simpl. apply lookup_insert_eq.
Qed.

Lemma trail_keys_independent_witness :
  ("instance_moon"%string <> "instance_p"%string ->
   addTrailPoint "instance_moon" (Vector3.new 100 0 2) (trails exampleScene)
   !! "instance_p"%string = trails exampleScene !! "instance_p"%string
   /\ clearTrail "instance_moon" (trails exampleScene) !! "instance_p"%string
      = trails exampleScene !! "instance_p"%string)
  /\ (trails exampleScene !! "instance_p"%string = None ->
      clearTrail "instance_p" (trails exampleScene) = trails exampleScene)
  /\ addTrailPoint "instance_p" (Vector3.new 112 0 0)
       (clearTrail "instance_p" (trails exampleScene)) !! "instance_p"%string
     = Some [Vector3.new 112 0 0].
Proof.
  destruct (trail_keys_independent "instance_moon" "instance_p"
              (Vector3.new 100 0 2) (trails exampleScene)) as (H1 & _ & _).
  destruct (trail_keys_independent "instance_p" "instance_moon"
              (Vector3.new 112 0 0) (trails exampleScene)) as (_ & H2 & H3).
  split; [exact H1 | split; [exact H2 | exact H3]].
Defined.

Lemma addTrailPoint_keeps_nonempty (key k : string) (position : Vector3.t)
    (m : gmap string (list Vector3.t)) :
  (exists trail, m !! k = Some trail /\ trail <> []) ->
  exists trail, addTrailPoint key position m !! k = Some trail /\ trail <> [].
Proof.
  intros (trail & Hk & Hne).
  destruct (decide (key = k)) as [-> | Hkk].
  - destruct (addTrailPoint_head k position m) as (t & h & Ht & Hlast & _).
    exists t. split; [exact Ht | ]. intros ->. discriminate Hlast.
  - exists trail. split; [ | exact Hne].
    rewrite addTrailPoint_unfold.
    destruct (movedEnough _ _); [ | exact Hk].
    rewrite lookup_insert_ne by exact Hkk. exact Hk.
Qed.

(** X21: after the frame callback every body with [userData] has a
    non-empty trail under its key, and the trails are still bounded by 300
    points and spaced if they were. *)
Theorem recordTrails_covers (planets : list RigidBody)
    (m : gmap string (list Vector3.t)) :
  (forall (planet : RigidBody) (u : UserData),
     planet ∈ planets -> userData planet = Some u ->
     exists trail,
       recordTrails (Some planets) m !! propertyKey (key u) = Some trail
       /\ trail <> [])
  /\ (trailsBounded m -> trailsBounded (recordTrails (Some planets) m))
  /\ (trailsSpaced m -> trailsSpaced (recordTrails (Some planets) m)).
Proof.
  split; [ | split].
  - simpl. revert m. induction planets as [ | p ps IH]; intros m planet u Hin Hu.
    + apply elem_of_nil in Hin. contradiction.
    + simpl.
      assert (Hkeep : forall (ps' : list RigidBody)
                        (m' : gmap string (list Vector3.t)) (k : string),
                 (exists trail, m' !! k = Some trail /\ trail <> []) ->
                 exists trail,
                   foldl (fun tr planet0 =>
                            match userData planet0 with
                            | Some u0 =>
                              let position := translation planet0 in
                              addTrailPoint (propertyKey (key u0))
                                (Vector3.new (Vector3.x position)
                                   (Vector3.y position) (Vector3.z position))
                                tr
                            | None => tr
                            end) m' ps' !! k = Some trail /\ trail <> []).
      { clear. induction ps' as [ | q qs IHq]; intros m' k Hk; simpl;
          [exact Hk | ].
        apply IHq. destruct (userData q); [ | exact Hk].
        apply addTrailPoint_keeps_nonempty, Hk. }
      apply elem_of_cons in Hin. destruct Hin as [-> | Hin].
      * rewrite Hu. apply Hkeep.
        destruct (addTrailPoint_head (propertyKey (key u))
                    (Vector3.new (Vector3.x (translation p))
                       (Vector3.y (translation p)) (Vector3.z (translation p)))
                    m) as (t & h & Ht & Hlast & _).
        exists t. split; [exact Ht | ]. intros ->. discriminate Hlast.
      * apply (IH _ planet u Hin Hu).
  - apply recordTrails_bounded.
  - simpl. revert m. induction planets as [ | p ps IH]; intros m Hm; simpl.
    + exact Hm.
    + apply IH. destruct (userData p); [ | exact Hm].
      apply addTrailPoint_spaced, Hm.
Qed.

Lemma recordTrails_covers_witness :
  (forall (planet : RigidBody) (u : UserData),
     planet ∈ [moonBody; planetBody] -> userData planet = Some u ->
     exists trail,
       recordTrails (Some [moonBody; planetBody]) ∅ !! propertyKey (key u)
       = Some trail
       /\ trail <> [])
  /\ (trailsBounded ∅ ->
      trailsBounded (recordTrails (Some [moonBody; planetBody]) ∅))
  /\ (trailsSpaced ∅ ->
      trailsSpaced (recordTrails (Some [moonBody; planetBody]) ∅)).
Proof.
  exact (recordTrails_covers [moonBody; planetBody] ∅).
Defined.

(** ** The explosion store *)

(** X22: completing an explosion removes every entry with that id and no
    other, keeps the rest in their order, and can be done in any order and
    any number of times with the same result. *)
Theorem handleExplosionComplete_removes (i j : R)
    (prev : list ExplosionProvider.Entry) :
  (forall e, e ∈ ExplosionProvider.handleExplosionComplete i prev
             <-> e ∈ prev /\ ExplosionProvider.id e <> i)
  /\ ExplosionProvider.handleExplosionComplete i prev `sublist_of` prev
  /\ ExplosionProvider.handleExplosionComplete i
       (ExplosionProvider.handleExplosionComplete i prev)
     = ExplosionProvider.handleExplosionComplete i prev
  /\ ExplosionProvider.handleExplosionComplete i
       (ExplosionProvider.handleExplosionComplete j prev)
     = ExplosionProvider.handleExplosionComplete j
         (ExplosionProvider.handleExplosionComplete i prev).
Proof.
  unfold ExplosionProvider.handleExplosionComplete.
  split; [ | split; [ | split]].
  - intros e. rewrite list_elem_of_filter. tauto.
  - apply sublist_filter.
  - rewrite list_filter_filter. apply list_filter_iff. tauto.
  - rewrite !list_filter_filter. apply list_filter_iff. tauto.
Qed.

(** X23: [triggerExplosion] appends one entry, with the position and
    orientation given and the next draw as id.  Completing that id right
    away gives the previous list back when no earlier entry carries the
    same id; an earlier entry that does is removed along with it. *)
Theorem triggerExplosion_then_complete (position lookAt : Vector3.t)
    (prev : list ExplosionProvider.Entry) (g : Random) :
  let fresh := draws g (cursor g) in
  let next := fst (ExplosionProvider.triggerExplosion position lookAt prev g) in
  next = prev ++ [ExplosionProvider.mkEntry position lookAt fresh]
  /\ ExplosionProvider.handleExplosionComplete fresh next
     = ExplosionProvider.handleExplosionComplete fresh prev
  /\ ((forall e, e ∈ prev -> ExplosionProvider.id e <> fresh) ->
      ExplosionProvider.handleExplosionComplete fresh next = prev).
Proof.
  intros fresh next.
  assert (Hnext : next = prev ++ [ExplosionProvider.mkEntry position lookAt
                                                            fresh])
    by reflexivity.
  assert (Hcomplete : ExplosionProvider.handleExplosionComplete fresh next
                      = ExplosionProvider.handleExplosionComplete fresh prev).
  { rewrite Hnext. unfold ExplosionProvider.handleExplosionComplete.
    rewrite filter_app, filter_cons_False, filter_nil, app_nil_r;
      [reflexivity | ].
    simpl. intros H. apply H. reflexivity. }
  split; [exact Hnext | split; [exact Hcomplete | ]].
  intros Hfresh. rewrite Hcomplete.
  unfold ExplosionProvider.handleExplosionComplete.
  clear Hnext Hcomplete next. induction prev as [ | e rest IH]; [reflexivity | ].
  rewrite filter_cons_True.
  - f_equal. apply IH. intros e' He'. apply Hfresh.
    apply elem_of_cons. right. exact He'.
  - apply Hfresh. apply elem_of_cons. left. reflexivity.
Qed.

Lemma triggerExplosion_then_complete_witness :
  let fresh := draws zeroDraws (cursor zeroDraws) in
  let next :=
    fst (ExplosionProvider.triggerExplosion
           (Vector3.new 15 0 0) (Vector3.new 100 0 0) [] zeroDraws) in
  next = [] ++ [ExplosionProvider.mkEntry (Vector3.new 15 0 0)
                                           (Vector3.new 100 0 0) fresh]
  /\ ExplosionProvider.handleExplosionComplete fresh next
     = ExplosionProvider.handleExplosionComplete fresh []
  /\ ((forall e, e ∈ [] -> ExplosionProvider.id e <> fresh) ->
      ExplosionProvider.handleExplosionComplete fresh next = []).
Proof.
  exact (triggerExplosion_then_complete (Vector3.new 15 0 0)
           (Vector3.new 100 0 0) [] zeroDraws).
Defined.

(** ** One explosion, frame after frame *)

Lemma frames_unattached (deltas : list R) (u : ExplosionFrames.Uniforms)
    (calls : list bool) :
  foldl (fun '(c0, calls0) delta =>
           let '(c1, done) := ExplosionFrames.step c0 delta in
           (c1, calls0 ++ [done]))
        (ExplosionFrames.mkComponent false u, calls) deltas
  = (ExplosionFrames.mkComponent false u,
     calls ++ replicate (List.length deltas) false).
Proof.
  revert calls. induction deltas as [ | d ds IH]; intros calls; simpl.
  - rewrite app_nil_r. reflexivity.
  - rewrite IH, <- app_assoc. reflexivity.
Qed.

(** X24: whatever the frames, an explosion as it is rendered never fades:
    [materialRef] is created without a value and attached to nothing, so
    the frame callback returns at its guard every time, the uniforms keep
    the values they were created with ([uTime] 0, [uOpacity] 1) and
    [onComplete] is never called.  The writes are there for an attached
    ref: one frame then adds [delta * 2] to [uTime], takes [delta * 1.5]
    from [uOpacity] and calls [onComplete] when the result is not
    positive. *)
Theorem explosion_never_fades (deltas : list R) (delta : R)
    (u : ExplosionFrames.Uniforms) :
  ExplosionFrames.materialRef_current ExplosionFrames.mounted = None
  /\ ExplosionFrames.frames deltas ExplosionFrames.mounted
     = (ExplosionFrames.mounted, replicate (List.length deltas) false)
  /\ ExplosionFrames.uniforms
       (fst (ExplosionFrames.frames deltas ExplosionFrames.mounted))
     = ExplosionFrames.mkUniforms 0 1
  /\ ExplosionFrames.step (ExplosionFrames.mkComponent true u) delta
     = (ExplosionFrames.mkComponent true
          (ExplosionFrames.mkUniforms
             (ExplosionFrames.uTime u + delta * 2)
             (ExplosionFrames.uOpacity u - delta * 1.5)),
        bool_decide (ExplosionFrames.uOpacity u - delta * 1.5 <= 0)).
Proof.
  assert (Hrun : ExplosionFrames.frames deltas ExplosionFrames.mounted
                 = (ExplosionFrames.mounted,
                    replicate (List.length deltas) false)).
  { unfold ExplosionFrames.frames, ExplosionFrames.mounted.
    rewrite frames_unattached. reflexivity. }
  split; [reflexivity | split; [exact Hrun | split; [ | reflexivity]]].
  rewrite Hrun. reflexivity.
Qed.

(** ** The camera follow *)

Lemma lerp_error (a goal : Vector3.t) (alpha : R) :
  Vector3.subVectors (Camera.lerp a goal alpha) goal
  = Vector3.multiplyScalar (Vector3.subVectors a goal) (1 - alpha).
Proof. apply vector_eq; simpl; ring. Qed.

Lemma observe_frame (live : Camera.Object3D) (st : Camera.State)
    (f : Camera.FocusedObject) (ob : Camera.Object3D) (c : Camera.Controls)
    (goal : Vector3.t) :
  Camera.focusedObject st = Some f -> Camera.object f = Some ob ->
  Camera.controls st = Some c ->
  Camera.targetPositionVec
    (Camera.mkFocusedObject (Some live) (Camera.instanceId f)) = Some goal ->
  Camera.frame (Camera.observe live st)
  = Camera.mkState
      (Camera.lerp (Camera.cameraTarget st) goal 0.05)
      (Some (Camera.lerp (Camera.cameraTarget st) goal 0.05))
      (Some (Camera.mkControls
               (match Camera.target c with
                | Some _ =>
                  Some (Camera.lerp (Camera.cameraTarget st) goal 0.05)
                | None => None
                end)))
      (Some (Camera.mkFocusedObject (Some live) (Camera.instanceId f))).
Proof.
  intros Hf Hob Hc Hg. unfold Camera.observe. rewrite Hf, Hob.
  unfold Camera.frame. simpl. rewrite Hc, Hg. rewrite copy_id. reflexivity.
Qed.

Lemma frames_at_rest (readings : list Camera.Object3D) (st : Camera.State)
    (f : Camera.FocusedObject) (ob : Camera.Object3D) (c : Camera.Controls)
    (goal : Vector3.t) :
  Camera.focusedObject st = Some f -> Camera.object f = Some ob ->
  Camera.controls st = Some c ->
  (forall live, live ∈ readings ->
     Camera.targetPositionVec
       (Camera.mkFocusedObject (Some live) (Camera.instanceId f))
     = Some goal) ->
  (exists f' ob',
     Camera.focusedObject (Camera.frames readings st) = Some f'
     /\ Camera.object f' = Some ob'
     /\ Camera.instanceId f' = Camera.instanceId f)
  /\ (exists c',
        Camera.controls (Camera.frames readings st) = Some c'
        /\ (is_Some (Camera.target c') <-> is_Some (Camera.target c))
        /\ (readings <> [] ->
            Camera.target c'
            = match Camera.target c with
              | Some _ =>
                Some (Camera.cameraTarget (Camera.frames readings st))
              | None => None
              end))
  /\ (readings <> [] ->
      Camera.lookingAt (Camera.frames readings st)
      = Some (Camera.cameraTarget (Camera.frames readings st)))
  /\ Vector3.subVectors (Camera.cameraTarget (Camera.frames readings st)) goal
     = Vector3.multiplyScalar
         (Vector3.subVectors (Camera.cameraTarget st) goal)
         (0.95 ^ List.length readings).
Proof.
  intros Hf Hob Hc.
  induction readings as [ | live readings IH] using rev_ind; intros Hall.
  - simpl. split; [exists f, ob; repeat split; assumption | ].
    split; [exists c; split; [exact Hc | split; [reflexivity | ]] | ].
    + intros Hne. contradiction.
    + split; [intros Hne; contradiction | ].
      apply vector_eq; simpl; ring.
  - destruct IH as ((f' & ob' & Hf' & Hob' & Hid) & (c' & Hc' & Hsome & _)
                    & _ & Herr).
    { intros l Hl. apply Hall. apply elem_of_app. left. exact Hl. }
    assert (Hg : Camera.targetPositionVec
                   (Camera.mkFocusedObject (Some live) (Camera.instanceId f'))
                 = Some goal).
    { rewrite Hid. apply Hall. apply elem_of_app. right.
      apply elem_of_cons. left. reflexivity. }
    unfold Camera.frames in *. rewrite foldl_app. simpl.
    rewrite (observe_frame live _ f' ob' c' goal Hf' Hob' Hc' Hg). simpl.
    split.
    { exists (Camera.mkFocusedObject (Some live) (Camera.instanceId f')), live.
      split; [reflexivity | split; [reflexivity | exact Hid]]. }
    split; [eexists; split; [reflexivity | split] | split].
    + simpl. rewrite <- Hsome.
      destruct (Camera.target c'); split; intros [v Hv];
        try discriminate Hv; eexists; reflexivity.
    + intros _. simpl.
      destruct (Camera.target c') as [v | ] eqn:Hv,
               (Camera.target c) as [v0 | ] eqn:Hv0; try reflexivity.
      * destruct Hsome as [Hs _].
        destruct Hs as [? Habs]; [eexists; reflexivity | discriminate Habs].
      * destruct Hsome as [_ Hs].
        destruct Hs as [? Habs]; [eexists; reflexivity | discriminate Habs].
    + intros _. reflexivity.
    + rewrite lerp_error, Herr, length_app. simpl.
      replace (List.length readings + 1)%nat with (S (List.length readings))
        by lia.
      assert (H95 : 1 - 0.05 = 0.95) by lra.
      apply vector_eq; simpl; rewrite H95;
        generalize (0.95 ^ List.length readings) 0.95; intros k c95; ring.
Qed.

(** X25: with an object focused and controls present, each frame moves
    the camera target a twentieth of the way to the position the object
    has when that frame reads it: the offset from that position shrinks
    by the factor 0.95.  For an object that stays at one position over a
    run of frames, the offset from it after n frames is 0.95^n times the
    initial one, and so is the distance; after the last frame the camera
    looks at the camera target and the controls' target, when there is
    one, is a copy of it. *)
Theorem camera_follows (readings : list Camera.Object3D) (st : Camera.State)
    (f : Camera.FocusedObject) (ob : Camera.Object3D) (c : Camera.Controls)
    (goal : Vector3.t) :
  Camera.focusedObject st = Some f -> Camera.object f = Some ob ->
  Camera.controls st = Some c ->
  (forall live, live ∈ readings ->
     Camera.targetPositionVec
       (Camera.mkFocusedObject (Some live) (Camera.instanceId f))
     = Some goal) ->
  let st' := Camera.frames readings st in
  (forall live position,
     Camera.targetPositionVec
       (Camera.mkFocusedObject (Some live) (Camera.instanceId f))
     = Some position ->
     Vector3.subVectors
       (Camera.cameraTarget (Camera.frame (Camera.observe live st))) position
     = Vector3.multiplyScalar
         (Vector3.subVectors (Camera.cameraTarget st) position) 0.95)
  /\ Vector3.subVectors (Camera.cameraTarget st') goal
     = Vector3.multiplyScalar
         (Vector3.subVectors (Camera.cameraTarget st) goal)
         (0.95 ^ List.length readings)
  /\ Vector3.distanceTo goal (Camera.cameraTarget st')
     = Vector3.distanceTo goal (Camera.cameraTarget st)
       * 0.95 ^ List.length readings
  /\ (readings <> [] ->
      Camera.lookingAt st' = Some (Camera.cameraTarget st')
      /\ exists c',
           Camera.controls st' = Some c'
           /\ Camera.target c'
              = match Camera.target c with
                | Some _ => Some (Camera.cameraTarget st')
                | None => None
                end).
Proof.
  intros Hf Hob Hc Hall st'.
  destruct (frames_at_rest readings st f ob c goal Hf Hob Hc Hall)
    as (_ & (c' & Hc' & _ & Hsync) & Hlook & Herr).
  fold st' in Hc', Hsync, Hlook, Herr.
  split; [ | split; [exact Herr | split]].
  - intros live position Hpos.
    rewrite (observe_frame live st f ob c position Hf Hob Hc Hpos). simpl.
    rewrite lerp_error. assert (H95 : 1 - 0.05 = 0.95) by lra.
    rewrite H95. reflexivity.
  - rewrite <- !length_subVectors, Herr.
    apply length_multiplyScalar. apply pow_le. lra.
  - intros Hne. split; [apply Hlook, Hne | ].
    exists c'. split; [exact Hc' | apply Hsync, Hne].
Qed.

Lemma camera_follows_witness :
  let ob := Camera.mkObject3D None (Some (Vector3.new 100 0 0)) in
  let f := Camera.mkFocusedObject (Some ob) None in
  let c := Camera.mkControls (Some Vector3.zero) in
  let st := Camera.mkState Vector3.zero None (Some c) (Some f) in
  let st' := Camera.frames [ob; ob; ob] st in
  (forall live position,
     Camera.targetPositionVec
       (Camera.mkFocusedObject (Some live) (Camera.instanceId f))
     = Some position ->
     Vector3.subVectors
       (Camera.cameraTarget (Camera.frame (Camera.observe live st))) position
     = Vector3.multiplyScalar
         (Vector3.subVectors (Camera.cameraTarget st) position) 0.95)
  /\ Vector3.subVectors (Camera.cameraTarget st') (Vector3.new 100 0 0)
     = Vector3.multiplyScalar
         (Vector3.subVectors (Camera.cameraTarget st) (Vector3.new 100 0 0))
         (0.95 ^ List.length [ob; ob; ob])
  /\ Vector3.distanceTo (Vector3.new 100 0 0) (Camera.cameraTarget st')
     = Vector3.distanceTo (Vector3.new 100 0 0) (Camera.cameraTarget st)
       * 0.95 ^ List.length [ob; ob; ob]
  /\ ([ob; ob; ob] <> [] ->
      Camera.lookingAt st' = Some (Camera.cameraTarget st')
      /\ exists c',
           Camera.controls st' = Some c'
           /\ Camera.target c'
              = match Camera.target c with
                | Some _ => Some (Camera.cameraTarget st')
                | None => None
                end).
Proof.
  intros ob f c st.
  apply (camera_follows [ob; ob; ob] st f ob c (Vector3.new 100 0 0)
           eq_refl eq_refl eq_refl).
  intros live Hin.
  apply elem_of_cons in Hin. destruct Hin as [-> | Hin]; [reflexivity | ].
  apply elem_of_cons in Hin. destruct Hin as [-> | Hin]; [reflexivity | ].
  apply elem_of_cons in Hin. destruct Hin as [-> | Hin]; [reflexivity | ].
  apply elem_of_nil in Hin. contradiction.
Defined.

(** X26: a frame without a focused object, without controls, or with a
    focused object that has neither instance matrices nor a position,
    changes nothing; [handleFocus] makes the camera follow the instance
    matrix of the instance hit when there is one, and the position of the
    object otherwise. *)
Theorem camera_focus (event : Camera.FocusEvent) (st : Camera.State) :
  (Camera.focusedObject st = None \/ Camera.controls st = None ->
   Camera.frame st = st)
  /\ (forall f, Camera.focusedObject st = Some f ->
                Camera.targetPositionVec f = None -> Camera.frame st = st)
  /\ Camera.focusedObject (Camera.handleFocus event st)
     = Some (Camera.mkFocusedObject (Camera.event_object event)
                                    (Camera.event_instanceId event))
  /\ (forall ob matrixAt i,
        Camera.event_object event = Some ob ->
        Camera.getMatrixAt ob = Some matrixAt ->
        Camera.event_instanceId event = Some i ->
        Camera.targetPositionVec
          (Camera.mkFocusedObject (Camera.event_object event)
                                  (Camera.event_instanceId event))
        = Some (Vector3.new (matrixAt i 12%nat) (matrixAt i 13%nat)
                            (matrixAt i 14%nat)))
  /\ (forall ob,
        Camera.event_object event = Some ob ->
        Camera.getMatrixAt ob = None \/ Camera.event_instanceId event = None ->
        Camera.targetPositionVec
          (Camera.mkFocusedObject (Camera.event_object event)
                                  (Camera.event_instanceId event))
        = Camera.position ob).
Proof.
  split; [ | split; [ | split; [reflexivity | split]]].
  - intros [Hf | Hc]; unfold Camera.frame.
    + rewrite Hf. reflexivity.
    + rewrite Hc. destruct (Camera.focusedObject st); reflexivity.
  - intros f Hf Hnone. unfold Camera.frame. rewrite Hf, Hnone.
    destruct (Camera.controls st); reflexivity.
  - intros ob matrixAt i Hob Hm Hi.
    unfold Camera.targetPositionVec; simpl. rewrite Hob, Hi, Hm. reflexivity.
  - intros ob Hob Hcase.
    unfold Camera.targetPositionVec; simpl. rewrite Hob.
    destruct Hcase as [Hm | Hi].
    + rewrite Hm. destruct (Camera.event_instanceId event);
        destruct (Camera.position ob) as [p | ]; try reflexivity;
        rewrite clone_id; reflexivity.
    + rewrite Hi. destruct (Camera.position ob) as [p | ]; try reflexivity.
      rewrite clone_id. reflexivity.
Qed.

(** ** The star field *)

Lemma sphere_point (d theta phi : R) :
  d * sin phi * cos theta * (d * sin phi * cos theta)
  + d * sin phi * sin theta * (d * sin phi * sin theta)
  + d * cos phi * (d * cos phi) = d * d.
Proof.
  pose proof (sin2_cos2 theta) as Ht. pose proof (sin2_cos2 phi) as Hp.
  unfold Rsqr in Ht, Hp.
  replace (d * sin phi * cos theta * (d * sin phi * cos theta)
           + d * sin phi * sin theta * (d * sin phi * sin theta)
           + d * cos phi * (d * cos phi))
    with (d * d * (sin phi * sin phi * (sin theta * sin theta
                                        + cos theta * cos theta)
                   + cos phi * cos phi)) by ring.
  rewrite Ht, Rmult_1_r, Hp. ring.
Qed.

Lemma Stars_fill_spec (rounds i : nat) (pos : list R) (g : Random) :
  unitDraws g -> ((i + rounds) * 3 <= List.length pos)%nat ->
  List.length (fst (Stars.fill rounds i pos g)) = List.length pos
  /\ (forall j, (j < i * 3)%nat ->
                fst (Stars.fill rounds i pos g) !! j = pos !! j)
  /\ (forall k, (i <= k < i + rounds)%nat ->
                Stars.onShell (fst (Stars.fill rounds i pos g)) k)
  /\ cursor (snd (Stars.fill rounds i pos g)) = (rounds * 3 + cursor g)%nat.
Proof.
  revert i pos g. induction rounds as [ | rounds IH]; intros i pos g Hu Hlen.
  - simpl. split; [reflexivity | split; [reflexivity | split; [ | reflexivity]]].
    intros k Hk. lia.
  - set (d := Stars.minDistance + draws g (cursor g) * 4500).
    set (theta := draws g (S (cursor g)) * 2 * PI).
    set (phi := acos (2 * draws g (S (S (cursor g))) - 1)).
    set (pos3 := <[(i * 3 + 2)%nat := d * cos phi]>
                   (<[(i * 3 + 1)%nat := d * sin phi * sin theta]>
                      (<[(i * 3)%nat := d * sin phi * cos theta]> pos))).
    set (g3 := mkRandom (draws g) (S (S (S (cursor g))))).
    change (Stars.fill (S rounds) i pos g)
      with (Stars.fill rounds (S i) pos3 g3).
    assert (Hu3 : unitDraws g3) by (intros n; apply Hu).
    assert (Hl3 : List.length pos3 = List.length pos)
      by (unfold pos3; rewrite !length_insert; reflexivity).
    destruct (IH (S i) pos3 g3 Hu3) as (Hlen' & Hlow & Hshell & Hcur);
      [rewrite Hl3; lia | ].
    split; [rewrite Hlen', Hl3; reflexivity | split; [ | split]].
    + intros j Hj. rewrite Hlow by lia. unfold pos3.
      rewrite !list_lookup_insert_ne by lia. reflexivity.
    + intros k Hk. destruct (decide (k = i)) as [-> | Hne].
      * exists (d * sin phi * cos theta), (d * sin phi * sin theta),
               (d * cos phi), d.
        rewrite !Hlow by lia. unfold pos3.
        split; [ | split; [ | split; [ | split]]].
        -- rewrite !list_lookup_insert_ne by lia.
           apply list_lookup_insert_eq. lia.
        -- rewrite list_lookup_insert_ne by lia.
           apply list_lookup_insert_eq. rewrite length_insert. lia.
        -- apply list_lookup_insert_eq. rewrite !length_insert. lia.
        -- pose proof (Hu (cursor g)). unfold d, Stars.minDistance. lra.
        -- apply sphere_point.
      * apply Hshell. lia.
    + rewrite Hcur. simpl. lia.
Qed.

(** X27: with draws in [0, 1), the position array of the star field holds
    three coordinates per star, and every star lies on a sphere about the
    origin whose radius is at least 500 and less than 5000; three draws are
    consumed per star. *)
Theorem Stars_positions_shell (count : nat) (g : Random) :
  unitDraws g ->
  List.length (fst (Stars.positions count g)) = (count * 3)%nat
  /\ (forall k, (k < count)%nat ->
                Stars.onShell (fst (Stars.positions count g)) k)
  /\ cursor (snd (Stars.positions count g)) = (count * 3 + cursor g)%nat.
Proof.
  intros Hu. unfold Stars.positions.
  destruct (Stars_fill_spec count 0 (replicate (count * 3) 0) g Hu)
    as (Hlen & _ & Hshell & Hcur).
  - rewrite length_replicate. lia.
  - rewrite length_replicate in Hlen.
    split; [exact Hlen | split; [ | exact Hcur]].
    intros k Hk. apply Hshell. lia.
Qed.

Lemma Stars_positions_shell_witness :
  List.length (fst (Stars.positions 4 zeroDraws)) = (4 * 3)%nat
  /\ (forall k, (k < 4)%nat ->
                Stars.onShell (fst (Stars.positions 4 zeroDraws)) k)
  /\ cursor (snd (Stars.positions 4 zeroDraws))
     = (4 * 3 + cursor zeroDraws)%nat.
Proof.
  exact (Stars_positions_shell 4 zeroDraws zeroDraws_unit).
Defined.

(** ** The particles of one explosion *)

Lemma Int_part_range (v : R) (n : Z) :
  0 <= v < IZR n -> (0 <= Int_part v < n)%Z.
Proof.
  intros [Hlo Hhi]. destruct (base_Int_part v) as [Hle Hgt].
  split.
  - assert (H : (-1 < Int_part v)%Z) by (apply lt_IZR; simpl; lra). lia.
  - apply lt_IZR. lra.
Qed.

Lemma cone_point (rho theta phi speed : R) :
  rho * cos theta * sin phi * speed * (rho * cos theta * sin phi * speed)
  + rho * sin theta * sin phi * speed * (rho * sin theta * sin phi * speed)
  + rho * cos phi * speed * (rho * cos phi * speed)
  = rho * speed * (rho * speed).
Proof.
  pose proof (sin2_cos2 theta) as Ht. pose proof (sin2_cos2 phi) as Hp.
  unfold Rsqr in Ht, Hp.
  replace (rho * cos theta * sin phi * speed
           * (rho * cos theta * sin phi * speed)
           + rho * sin theta * sin phi * speed
             * (rho * sin theta * sin phi * speed)
           + rho * cos phi * speed * (rho * cos phi * speed))
    with (rho * speed * (rho * speed)
          * (sin phi * sin phi * (sin theta * sin theta
                                  + cos theta * cos theta)
             + cos phi * cos phi)) by ring.
  rewrite Ht, Rmult_1_r, Hp. ring.
Qed.

Lemma ExplosionParticles_fill_spec (spread : R) (rounds i : nat)
    (geo : ExplosionParticles.Geometry) (g : Random) :
  unitDraws g -> 0 <= spread ->
  ((i + rounds) * 3 <= List.length (ExplosionParticles.positions geo))%nat ->
  ((i + rounds) * 3 <= List.length (ExplosionParticles.velocities geo))%nat ->
  (i + rounds <= List.length (ExplosionParticles.sizes geo))%nat ->
  let geo' := fst (ExplosionParticles.fill spread rounds i geo g) in
  List.length (ExplosionParticles.positions geo')
  = List.length (ExplosionParticles.positions geo)
  /\ List.length (ExplosionParticles.velocities geo')
     = List.length (ExplosionParticles.velocities geo)
  /\ List.length (ExplosionParticles.sizes geo')
     = List.length (ExplosionParticles.sizes geo)
  /\ (forall j, (j < i * 3)%nat ->
                ExplosionParticles.positions geo' !! j
                = ExplosionParticles.positions geo !! j
                /\ ExplosionParticles.velocities geo' !! j
                   = ExplosionParticles.velocities geo !! j)
  /\ (forall j, (j < i)%nat ->
                ExplosionParticles.sizes geo' !! j
                = ExplosionParticles.sizes geo !! j)
  /\ (forall k, (i <= k < i + rounds)%nat ->
                ExplosionParticles.particle spread geo' k).
Proof.
  revert i geo g. induction rounds as [ | rounds IH];
    intros i geo g Hu Hsp Hp Hv Hs.
  - simpl. do 5 (split; [try reflexivity; intros; split; reflexivity | ]).
    intros k Hk. lia.
  - set (radius := draws g (cursor g) * spread).
    set (theta := draws g (S (cursor g)) * PI * 2).
    set (phi := acos (draws g (S (S (cursor g))) * 2 - 1)
                * (0.3 + draws g (S (S (S (cursor g)))) * 0.4)).
    set (speed := (draws g (S (S (S (S (cursor g))))) * 0.8 + 0.2)
                  * (spread * 0.2)).
    set (size := draws g (S (S (S (S (S (cursor g)))))) * 4 + 2).
    set (geo1 :=
           ExplosionParticles.mkGeometry
             (<[(i * 3 + 2)%nat := 0]>
                (<[(i * 3 + 1)%nat := 0]>
                   (<[(i * 3)%nat := 0]> (ExplosionParticles.positions geo))))
             (<[(i * 3 + 2)%nat := radius * cos phi * speed]>
                (<[(i * 3 + 1)%nat := radius * sin theta * sin phi * speed]>
                   (<[(i * 3)%nat := radius * cos theta * sin phi * speed]>
                      (ExplosionParticles.velocities geo))))
             (<[i := size]> (ExplosionParticles.sizes geo))).
    set (g1 := mkRandom (draws g) (S (S (S (S (S (S (cursor g)))))))).
    change (ExplosionParticles.fill spread (S rounds) i geo g)
      with (ExplosionParticles.fill spread rounds (S i) geo1 g1).
    assert (Hu1 : unitDraws g1) by (intros n; apply Hu).
    assert (Hlp : List.length (ExplosionParticles.positions geo1)
                  = List.length (ExplosionParticles.positions geo))
      by (unfold geo1; simpl; rewrite !length_insert; reflexivity).
    assert (Hlv : List.length (ExplosionParticles.velocities geo1)
                  = List.length (ExplosionParticles.velocities geo))
      by (unfold geo1; simpl; rewrite !length_insert; reflexivity).
    assert (Hls : List.length (ExplosionParticles.sizes geo1)
                  = List.length (ExplosionParticles.sizes geo))
      by (unfold geo1; simpl; rewrite !length_insert; reflexivity).
    destruct (IH (S i) geo1 g1 Hu1 Hsp)
      as (Hp' & Hv' & Hs' & Hlow & Hlows & Hpart);
      [rewrite Hlp; lia | rewrite Hlv; lia | rewrite Hls; lia | ].
    cbv zeta.
    split; [rewrite Hp', Hlp; reflexivity | ].
    split; [rewrite Hv', Hlv; reflexivity | ].
    split; [rewrite Hs', Hls; reflexivity | ].
    split; [ | split].
    + intros j Hj. destruct (Hlow j) as [H1 H2]; [lia | ].
      rewrite H1, H2. unfold geo1; simpl.
      rewrite !list_lookup_insert_ne by lia. split; reflexivity.
    + intros j Hj. rewrite Hlows by lia. unfold geo1; simpl.
      rewrite list_lookup_insert_ne by lia. reflexivity.
    + intros k Hk. destruct (decide (k = i)) as [-> | Hne];
        [ | apply Hpart; lia].
      destruct (Hlow (i * 3)%nat) as [Hp0 Hv0]; [lia | ].
      destruct (Hlow (i * 3 + 1)%nat) as [Hp1 Hv1]; [lia | ].
      destruct (Hlow (i * 3 + 2)%nat) as [Hp2 Hv2]; [lia | ].
      unfold ExplosionParticles.particle.
      rewrite Hp0, Hp1, Hp2, Hv0, Hv1, Hv2, (Hlows i) by lia.
      unfold geo1; simpl.
      split; [ | split; [ | split; [ | split]]].
      * rewrite !list_lookup_insert_ne by lia.
        apply list_lookup_insert_eq. lia.
      * rewrite list_lookup_insert_ne by lia.
        apply list_lookup_insert_eq. rewrite length_insert. lia.
      * apply list_lookup_insert_eq. rewrite !length_insert. lia.
      * exists size. split; [apply list_lookup_insert_eq; lia | ].
        pose proof (Hu (S (S (S (S (S (cursor g))))))). unfold size. lra.
      * exists (radius * cos theta * sin phi * speed),
               (radius * sin theta * sin phi * speed),
               (radius * cos phi * speed), (radius * speed).
        split; [ | split; [ | split; [ | split]]].
        -- rewrite !list_lookup_insert_ne by lia.
           apply list_lookup_insert_eq. lia.
        -- rewrite list_lookup_insert_ne by lia.
           apply list_lookup_insert_eq. rewrite length_insert. lia.
        -- apply list_lookup_insert_eq. rewrite !length_insert. lia.
        -- apply cone_point.
        -- pose proof (Hu (cursor g)) as H0.
           pose proof (Hu (S (S (S (S (cursor g)))))) as H4.
           assert (Hr : 0 <= radius <= spread) by (unfold radius; nra).
           assert (Hsd : 0 <= speed <= spread * 0.2) by (unfold speed; nra).
           nra.
Qed.

(** X28: with draws in [0, 1) and a spread that is not negative, an
    explosion is made of 100 to 149 particles, with three position
    coordinates, three velocity coordinates and one size each; every
    particle starts at the origin with a size in [2, 6) and a speed of at
    most [0.2 * spread^2]; the material starts at time 0 with opacity 1. *)
Theorem explosion_particles (spread : R) (g : Random) :
  unitDraws g -> 0 <= spread ->
  let '(count, geo, material) := fst (ExplosionParticles.create spread g) in
  (100 <= count <= 149)%nat
  /\ List.length (ExplosionParticles.positions geo) = (count * 3)%nat
  /\ List.length (ExplosionParticles.velocities geo) = (count * 3)%nat
  /\ List.length (ExplosionParticles.sizes geo) = count
  /\ (forall k, (k < count)%nat -> ExplosionParticles.particle spread geo k)
  /\ ExplosionParticles.uTime material = 0
  /\ ExplosionParticles.uOpacity material = 1
  /\ ExplosionParticles.uSpread material = spread.
Proof.
  intros Hu Hsp.
  set (count := Z.to_nat (100 + Int_part (draws g (cursor g) * 50))).
  set (geo0 := ExplosionParticles.mkGeometry
                 (replicate (count * 3) 0) (replicate (count * 3) 0)
                 (replicate count 0)).
  set (g2 := mkRandom (draws g) (S (S (cursor g)))).
  change (ExplosionParticles.create spread g)
    with (let '(geo, g') := ExplosionParticles.fill spread count 0 geo0 g2 in
          (count, geo,
           ExplosionParticles.mkMaterial 0 spread
             (draws g (S (cursor g)) * 0.1 + 0.05, 0.9, 0.6) 1.0, g')).
  assert (Hu2 : unitDraws g2) by (intros n; apply Hu).
  destruct (ExplosionParticles_fill_spec spread count 0 geo0 g2 Hu2 Hsp)
    as (Hp & Hv & Hs & _ & _ & Hpart);
    try (unfold geo0; simpl; rewrite length_replicate; lia).
  destruct (ExplosionParticles.fill spread count 0 geo0 g2) as [geo g'].
  simpl fst in *.
  unfold geo0 in Hp, Hv, Hs. simpl in Hp, Hv, Hs.
  rewrite length_replicate in Hp, Hv, Hs.
  split; [ | split; [exact Hp | split; [exact Hv | split; [exact Hs | ]]]].
  - pose proof (Hu (cursor g)) as H0.
    assert (Hr : (0 <= Int_part (draws g (cursor g) * 50) < 50)%Z)
      by (apply Int_part_range; simpl; lra).
    unfold count. lia.
  - split; [ | split; [reflexivity | split; [simpl; lra | reflexivity]]].
    intros k Hk. apply Hpart. lia.
Qed.

Lemma explosion_particles_witness :
  let '(count, geo, material) :=
    fst (ExplosionParticles.create 10 zeroDraws) in
  (100 <= count <= 149)%nat
  /\ List.length (ExplosionParticles.positions geo) = (count * 3)%nat
  /\ List.length (ExplosionParticles.velocities geo) = (count * 3)%nat
  /\ List.length (ExplosionParticles.sizes geo) = count
  /\ (forall k, (k < count)%nat -> ExplosionParticles.particle 10 geo k)
  /\ ExplosionParticles.uTime material = 0
  /\ ExplosionParticles.uOpacity material = 1
  /\ ExplosionParticles.uSpread material = 10.
Proof.
  apply (explosion_particles 10 zeroDraws zeroDraws_unit). lra.
Defined.
